(** * Post-processing of the qiskit-tutorial notebooks

    A shallow embedding of the classical code of two notebooks:
    - [relaxation_and_decoherence.ipynb]: construction of the delay
      circuits of the T1, T2*, T2-echo and CPMG experiments, the cells
      that arrange the measured counts, call the curve fitter and plot;
    - the Deutsch-Josza notebook: the filtering of the histogram.

    Conventions of the embedding.
    - A Python [dict] is an association list in insertion order with
      pairwise distinct keys (module [PyDict]).
    - Python exceptions are values of [exn]; a computation that may raise
      has type [exn + A] (module [Py]).
    - Measured counts and [shots] are integers ([Z]); the floating-point
      numbers that are quotients of those and of the backend's gate times
      are exact rationals ([Q]); where the code takes a square root or
      uses pi they are real numbers ([R]).  Rounding is not modelled.
    - [scipy.optimize.curve_fit] and [plot_coherence] are not code of the
      notebooks: the cells are parametrised by them. *)

From Stdlib Require Import List String Ascii Bool Arith ZArith QArith Lia.
From Stdlib Require Import Qreals Reals Lra.
From Stdlib Require Import DecimalString DecimalNat Decimal.
Import ListNotations.

Local Close Scope Q_scope.
Local Close Scope R_scope.
Local Open Scope nat_scope.
Local Open Scope string_scope.
Local Open Scope list_scope.

(** ** Python values shared by the cells *)

Module Py.

(** The exceptions the cells can raise.  [FitError] stands for whatever
    the curve fitter raises (scipy raises [RuntimeError] or
    [ValueError], with a message). *)
Inductive exn : Type :=
| IndexError
| KeyError (key : string)
| NameError (name : string)
| ZeroDivisionError
| ResultError (circuit : string)
| FitError (msg : string).

Definition result (A : Type) : Type := (exn + A)%type.

Definition ret {A} (a : A) : result A := inr a.
Definition raise {A} (e : exn) : result A := inl e.

Definition bind {A B} (c : result A) (k : A -> result B) : result B :=
  match c with
  | inl e => inl e
  | inr a => k a
  end.

(** [l[i]] for a list and a non-negative index. *)
Definition index {A} (l : list A) (i : nat) : result A :=
  match nth_error l i with
  | Some a => ret a
  | None => raise IndexError
  end.

(** [s.find(sub)]: the lowest index at which [sub] occurs in [s],
    and [-1] when it does not occur. *)
Definition find (s sub : string) : Z :=
  match String.index 0 sub s with
  | Some n => Z.of_nat n
  | None => (-1)%Z
  end.

(** [str(n)] for a non-negative integer. *)
Definition str (n : nat) : string :=
  NilEmpty.string_of_uint (Nat.to_uint n).

End Py.

Notation "x <- c ;; k" := (Py.bind c (fun x => k))
  (at level 61, c at next level, right associativity).

(** ** Insertion-ordered dictionaries *)

Module PyDict.

Section Dict.
Context {V : Type}.

Definition dict : Type := list (string * V).

Definition keys (d : dict) : list string := map fst d.
Definition values (d : dict) : list V := map snd d.
Definition items (d : dict) : list (string * V) := d.

Fixpoint get (d : dict) (k : string) : option V :=
  match d with
  | [] => None
  | (k', v) :: d' => if String.eqb k k' then Some v else get d' k
  end.

(** [d[k]] *)
Definition getitem (d : dict) (k : string) : Py.result V :=
  match get d k with
  | Some v => Py.ret v
  | None => Py.raise (Py.KeyError k)
  end.

(** [d[k] = v]: an existing key keeps its position, a new key goes
    to the end. *)
Fixpoint set (d : dict) (k : string) (v : V) : dict :=
  match d with
  | [] => [(k, v)]
  | (k', v') :: d' =>
      if String.eqb k k' then (k', v) :: d' else (k', v') :: set d' k v
  end.

End Dict.

Arguments dict V : clear implicits.

(** [sum(l)] and [sum(d.values())] as exact integers. *)
Definition sumZ (l : list Z) : Z := fold_right Z.add 0%Z l.

Definition total (d : dict Z) : Z := sumZ (values d).

End PyDict.

(** ** Circuits of the coherence experiments *)

Module Circuit.

(** The gates the notebooks append to a circuit, each on one qubit.
    The angle of [U1] is a float in the source. *)
Inductive gate : Type :=
| X (q : nat)
| H (q : nat)
| Iden (q : nat)
| Barrier (q : nat)
| U1 (theta : R) (q : nat)
| Measure (q c : nat).

Definition circuit : Type := list gate.

(** [pad_QId(circuit, N, qr)]: [N] times a barrier and an identity. *)
Fixpoint pad_QId (circ : circuit) (N : nat) (qr : nat) : circuit :=
  match N with
  | O => circ
  | S N' => pad_QId (circ ++ [Barrier qr; Iden qr]) N' qr
  end.

Definition is_iden (g : gate) : bool :=
  match g with Iden _ => true | _ => false end.

(** Number of identity gates of a circuit: each lasts one gate time and
    is followed by one buffer time. *)
Definition count_iden (circ : circuit) : nat :=
  List.length (filter is_iden circ).

End Circuit.

(** ** The relaxation and decoherence notebook *)

Module Coherence.

Import Circuit.

Inductive experiment : Type := T1 | T2star | T2echo | CPMG.

(** One entry of [get_backend_parameters(backend)['qubits']]. *)
Record qubit_params : Type := {
  gateTime_value : Q;
  gateTime_unit : string;
  buffer_value : Q
}.

Definition shots : Z := 1024.

Definition qubit (e : experiment) : nat :=
  match e with T1 => 3 | T2star => 0 | T2echo => 3 | CPMG => 3 end.

Definition steps (e : experiment) : nat :=
  match e with T1 => 10 | T2star => 40 | T2echo => 20 | CPMG => 17 end.

Definition gates_per_step (e : experiment) : nat :=
  match e with T1 => 80 | T2star => 5 | T2echo => 20 | CPMG => 6 end.

Definition num_osc : nat := 4.
Definition num_echo : nat := 7.

Definition Qnat (n : nat) : Q := inject_Z (Z.of_nat n).

Definition tot_length (p : qubit_params) : Q :=
  (buffer_value p + gateTime_value p)%Q.

Definition time_per_step (e : experiment) (p : qubit_params) : Q :=
  match e with
  | T1 | T2star => (Qnat (gates_per_step e) * tot_length p)%Q
  | T2echo => (Qnat (2 * gates_per_step e) * tot_length p)%Q
  | CPMG =>
      (Qnat ((num_echo + 1) * gates_per_step e + num_echo) * tot_length p)%Q
  end.

(** ['step_%s' % str(ii)] *)
Definition step_name (ii : nat) : string :=
  String.append "step_" (Py.str ii).

(** The inner loop of the CPMG cell:
    [for iii in range(num_echo): pad_QId(...); x(...)]. *)
Fixpoint echo_train (circ : circuit) (n pad q : nat) : circuit :=
  match n with
  | O => circ
  | S n' => echo_train (pad_QId circ pad q ++ [X q]) n' pad q
  end.

(** The body of the construction loop: the gates of circuit [ii]. *)
Definition step_circuit (e : experiment) (ii : nat) : circuit :=
  let q := qubit e in
  let pad := gates_per_step e * ii in
  match e with
  | T1 =>
      pad_QId [X q] pad q ++ [Barrier q; Measure q q]
  | T2star =>
      pad_QId [H q] pad q
        ++ [U1 (2 * PI * INR num_osc * INR ii / INR (steps e - 1))%R q;
            H q; Barrier q; Measure q q]
  | T2echo =>
      pad_QId (pad_QId [H q] pad q ++ [X q]) pad q
        ++ [H q; Barrier q; Measure q q]
  | CPMG =>
      pad_QId (echo_train [H q] num_echo pad q) pad q
        ++ [H q; Barrier q; Measure q q]
  end.

(** Number of padded identity gates in the circuit of step [ii]. *)
Definition idens (e : experiment) (ii : nat) : nat :=
  match e with
  | T1 | T2star => gates_per_step e * ii
  | T2echo => 2 * (gates_per_step e * ii)
  | CPMG => (num_echo + 1) * (gates_per_step e * ii)
  end.

(** [qc_dict] after [for ii in range(steps)]. *)
Fixpoint build_qc_dict (e : experiment) (n : nat) : PyDict.dict circuit :=
  match n with
  | O => []
  | S n' => PyDict.set (build_qc_dict e n') (step_name n') (step_circuit e n')
  end.

(** What a construction cell leaves in the notebook's namespace. *)
Record setup : Type := {
  unit : string;
  s_time_per_step : Q;
  qc_dict : PyDict.dict circuit
}.

(** [f_set = 4.0/(steps*time_per_step)] of the T2* cell; the other
    cells have no such line. *)
Definition f_set (e : experiment) (p : qubit_params) : Py.result Q :=
  match e with
  | T2star =>
      if Qeq_bool (Qnat (steps e) * time_per_step e p) 0
      then Py.raise Py.ZeroDivisionError
      else Py.ret (4 / (Qnat (steps e) * time_per_step e p))%Q
  | _ => Py.ret 0%Q
  end.

Definition construct (e : experiment) (backend : list qubit_params)
  : Py.result setup :=
  params <- Py.index backend (qubit e) ;;
  _ <- f_set e params ;;
  Py.ret {| unit := gateTime_unit params;
            s_time_per_step := time_per_step e params;
            qc_dict := build_qc_dict e (steps e) |}.

(** [np.linspace(start, stop, num)]: [num] evenly spaced samples over
    the closed interval, the last one set to [stop]. *)
Definition linspace (start stop : Q) (num : nat) : list Q :=
  match num with
  | O => []
  | 1%nat => [start]
  | _ =>
      let step := ((stop - start) / Qnat (num - 1))%Q in
      map (fun i => (Qnat i * step + start)%Q) (seq 0 (num - 1)) ++ [stop]
  end.

(** The unit conversion of the arrange cells: [plot_factor] and the
    binding of [punit] it leaves, given the binding it found. *)
Definition plot_factor (unit : string) : Q :=
  if (Py.find unit "ns" >? -1)%Z then 1000%Q else 1%Q.

Definition punit_after (unit : string) (punit : option string)
  : option string :=
  if (Py.find unit "ns" >? -1)%Z then Some "$\mu$s" else punit.

Definition xvals (s : setup) : list Q :=
  let n := List.length (PyDict.keys (qc_dict s)) in
  map (fun v => (s_time_per_step s * v / plot_factor (unit s))%Q)
      (linspace 0%Q (Qnat n) n).

(** The result object of [Q_program.execute]: counts per circuit name. *)
Definition counts : Type := PyDict.dict Z.
Definition run_result : Type := PyDict.dict counts.

Definition get_counts (r : run_result) (name : string) : Py.result counts :=
  match PyDict.get r name with
  | Some c => Py.ret c
  | None => Py.raise (Py.ResultError name)
  end.

(** [float(c)/shots] *)
Definition normalize (c shots : Z) : Py.result Q :=
  if (shots =? 0)%Z then Py.raise Py.ZeroDivisionError
  else Py.ret (inject_Z c / inject_Z shots)%Q.

(** [np.sqrt(p*(1-p))/np.sqrt(shots)] *)
Definition sigma (p : Q) (shots : Z) : R :=
  (sqrt (Q2R (p * (1 - p))) / sqrt (IZR shots))%R.

(** The counts of a circuit measured with [shots] shots: non-negative
    integers that add up to the number of shots. *)
Definition histogram (shots : Z) (c : counts) : Prop :=
  Forall (fun v => (0 <= v)%Z) (PyDict.values c) /\ PyDict.total c = shots.

(** Duration of the padded identity gates of circuit [ii], each with
    its buffer, in the unit of the backend. *)
Definition delay (e : experiment) (p : qubit_params) (ii : nat) : Q :=
  (Qnat (count_iden (step_circuit e ii)) * tot_length p)%Q.

(** One iteration of the data loop: the entries [data[ii]] and
    [sigma_data[ii]]. *)
Definition extract_step (r : run_result) (keys_0_1 : list string)
    (shots : Z) (key : string) : Py.result (Q * R) :=
  c <- get_counts r key ;;
  k <- Py.index keys_0_1 1 ;;
  v <- PyDict.getitem c k ;;
  p <- normalize v shots ;;
  Py.ret (p, sigma p shots).

Fixpoint extract_loop (r : run_result) (keys_0_1 : list string)
    (shots : Z) (ks : list string) : Py.result (list (Q * R)) :=
  match ks with
  | [] => Py.ret []
  | key :: ks' =>
      d <- extract_step r keys_0_1 shots key ;;
      ds <- extract_loop r keys_0_1 shots ks' ;;
      Py.ret (d :: ds)
  end.

(** The key the data loop reads in every histogram: the second key of
    the counts of ['step_0']. *)
Definition excited_key (c0 : counts) : Py.result string :=
  Py.index (PyDict.keys c0) 1.

(** *** The fit and the report *)

Inductive fit_fun : Type := exp_fit_fun | osc_fit_fun.

(** The arguments of one call of [curve_fit]; [p0 = None] when the call
    does not pass the keyword. *)
Record fit_call : Type := {
  f : fit_fun;
  xdata : list Q;
  ydata : list Q;
  p0 : option (list R);
  bounds : list R * list R
}.

Definition fit_fun_of (e : experiment) : fit_fun :=
  match e with T2star => osc_fit_fun | _ => exp_fit_fun end.

Definition p0_of (e : experiment) : option (list R) :=
  match e with
  | T2star => Some [0.5; 100; 1 / 10; PI; 0]%R
  | _ => None
  end.

Definition bounds_of (e : experiment) : list R * list R :=
  match e with
  | T1 => ([-1; 2; 0], [1; 500; 1])%R
  | T2star => ([0.3; 0; 0; 0; 0], [0.5; 200; 1 / 2; 2 * PI; 1])%R
  | T2echo | CPMG => ([-1; 10; 0], [1; 150; 1])%R
  end.

Definition make_call (e : experiment) (xs ys : list Q) : fit_call :=
  {| f := fit_fun_of e; xdata := xs; ydata := ys;
     p0 := p0_of e; bounds := bounds_of e |}.

(** [np.diag] of a two-dimensional array. *)
Definition diag (m : list (list R)) : list R :=
  map (fun i => nth i (nth i m []) 0%R)
      (seq 0 (Nat.min (List.length m) (List.length (hd [] m)))).

(** [np.sqrt(np.diag(fcov))] *)
Definition std_errors (fcov : list (list R)) : list R :=
  map sqrt (diag fcov).

(** The title handed to [plot_coherence]. *)
Definition plot_name (e : experiment) : string :=
  match e with
  | T1 => "T$_1$ "
  | T2star => "$T_2^*$ "
  | T2echo => "$T_{2echo}$ "
  | CPMG => "$T_{2cpmg}$ "
  end.

(** The [print] statements of a cell: label, index of the parameter,
    factor applied to the value and factor applied to its error. *)
Definition line (label : string) (i : nat) (kv ke : R)
  : string * nat * R * R := (label, i, kv, ke).

Definition report_lines (e : experiment) : list (string * nat * R * R) :=
  match e with
  | T1 => [line "a: " 0 1 1; line "T1: " 1 1 1; line "c: " 2 1 1]
  | T2star =>
      [line "a: " 0 1 1; line "T2*: " 1 1 1;
       line "f: " 2 (10 ^ 3) (10 ^ 6); line "phi: " 3 1 1; line "c: " 4 1 1]
  | T2echo | CPMG =>
      [line "a: " 0 1 1; line "T2: " 1 1 1; line "c: " 2 1 1]
  end.

Record plot_args : Type := {
  p_xvals : list Q;
  p_data : list Q;
  p_sigma : list R;
  p_fit : list R;
  p_fun : fit_fun;
  p_punit : string;
  p_name : string;
  p_qubit : nat
}.

(** What a cell shows: the plot, then the printed lines (the value and
    the error of a line before [round] and [str]). *)
Inductive event : Type :=
| Plot (a : plot_args)
| Print (label : string) (value err : R).

(** The names of the notebook's namespace that outlive a cell and are
    not assigned on every path: [punit], the fit of each experiment
    ([fitT1], [fitT2s], [fitT2e], [fitT2cpmg]), [fcov] and [ferr]. *)
Record namespace : Type := {
  punit : option string;
  fit : experiment -> option (list R);
  fcov : option (list (list R));
  ferr : option (list R)
}.

Definition fresh : namespace :=
  {| punit := None; fit := fun _ => None; fcov := None; ferr := None |}.

Definition experiment_eqb (a b : experiment) : bool :=
  match a, b with
  | T1, T1 | T2star, T2star | T2echo, T2echo | CPMG, CPMG => true
  | _, _ => false
  end.

Definition bind_punit (ns : namespace) (u : option string) : namespace :=
  {| punit := u; fit := fit ns; fcov := fcov ns; ferr := ferr ns |}.

Definition bind_fit (ns : namespace) (e : experiment)
    (popt : list R) (pcov : list (list R)) : namespace :=
  {| punit := punit ns;
     fit := fun e' => if experiment_eqb e' e then Some popt else fit ns e';
     fcov := Some pcov;
     ferr := Some (std_errors pcov) |}.

(** How a cell ends: the namespace it leaves, what it has shown, and
    the exception that stopped it, if any. *)
Record outcome : Type := {
  ns_out : namespace;
  shown : list event;
  raised : option Py.exn
}.

(** The [print] statements, one after the other. *)
Fixpoint report (lines : list (string * nat * R * R)) (popt errs : list R)
    (ns : namespace) (done : list event) : outcome :=
  match lines with
  | [] => {| ns_out := ns; shown := done; raised := None |}
  | (label, i, kv, ke) :: rest =>
      match (v <- Py.index popt i ;; s <- Py.index errs i ;; Py.ret (v, s)) with
      | inl x => {| ns_out := ns; shown := done; raised := Some x |}
      | inr (v, s) =>
          report rest popt errs ns (done ++ [Print label (kv * v) (ke * s)])
      end
  end.

(** The arguments with which an arrange cell reaches [curve_fit], or
    the exception that stops it before. *)
Definition fit_request (e : experiment) (s : setup) (r : run_result)
    (shots : Z) : Py.result fit_call :=
  c0 <- get_counts r "step_0" ;;
  ds <- extract_loop r (PyDict.keys c0) shots (PyDict.keys (qc_dict s)) ;;
  Py.ret (make_call e (xvals s) (map fst ds)).

(** The array [sigma_data] of an arrange cell that completes its data
    loop. *)
Definition p_sigma_of (e : experiment) (s : setup) (r : run_result)
    (shots : Z) : list R :=
  match get_counts r "step_0" with
  | inl _ => []
  | inr c0 =>
      match extract_loop r (PyDict.keys c0) shots (PyDict.keys (qc_dict s)) with
      | inl _ => []
      | inr ds => map snd ds
      end
  end.

Section Cells.

(** [scipy.optimize.curve_fit]: it returns the pair [(popt, pcov)] or
    raises. *)
Variable curve_fit : fit_call -> Py.result (list R * list (list R)).

(** A cell "arrange the data from the run" of experiment [e], run on
    the namespace [ns] with the [setup] of the construction cell and
    the [result] of the execution cell. *)
Definition arrange (e : experiment) (s : setup) (r : run_result)
    (shots : Z) (ns : namespace) : outcome :=
  match get_counts r "step_0" with
  | inl x => {| ns_out := ns; shown := []; raised := Some x |}
  | inr c0 =>
      let keys_0_1 := PyDict.keys c0 in
      let ns1 := bind_punit ns (punit_after (unit s) (punit ns)) in
      let xs := xvals s in
      match extract_loop r keys_0_1 shots (PyDict.keys (qc_dict s)) with
      | inl x => {| ns_out := ns1; shown := []; raised := Some x |}
      | inr ds =>
          let data := map fst ds in
          let sigma_data := map snd ds in
          match curve_fit (make_call e xs data) with
          | inl x => {| ns_out := ns1; shown := []; raised := Some x |}
          | inr (popt, pcov) =>
              let ns2 := bind_fit ns1 e popt pcov in
              match punit ns2 with
              | None =>
                  {| ns_out := ns2; shown := [];
                     raised := Some (Py.NameError "punit") |}
              | Some pu =>
                  report (report_lines e) popt (std_errors pcov) ns2
                    [Plot {| p_xvals := xs; p_data := data;
                             p_sigma := sigma_data; p_fit := popt;
                             p_fun := fit_fun_of e; p_punit := pu;
                             p_name := plot_name e;
                             p_qubit := qubit e |}]
              end
          end
      end
  end.

(** The cells of a session run one after the other on the shared
    namespace, whether or not the previous one raised. *)
Fixpoint run_cells (cells : list (namespace -> outcome)) (ns : namespace)
  : list outcome :=
  match cells with
  | [] => []
  | cell :: rest => let o := cell ns in o :: run_cells rest (ns_out o)
  end.

(** The three cells of an experiment in a row: construction, execution
    (whose result is [r]) and arrangement. *)
Definition run_experiment (e : experiment) (backend : list qubit_params)
    (r : run_result) (shots : Z) (ns : namespace) : outcome :=
  match construct e backend with
  | inl x => {| ns_out := ns; shown := []; raised := Some x |}
  | inr s => arrange e s r shots ns
  end.

End Cells.

(** A notebook session on one backend: each entry is an experiment with
    the result its execution cell received. *)
Definition run_session
    (curve_fit : fit_call -> Py.result (list R * list (list R)))
    (backend : list qubit_params) (shots : Z)
    (runs : list (experiment * run_result)) : list outcome :=
  run_cells
    (map (fun er => run_experiment curve_fit (fst er) backend (snd er) shots)
         runs)
    fresh.

End Coherence.

(** ** Sample inputs *)

Module Samples.

Import Coherence.

(** Five qubits with a gate time of 60 ns and a buffer of 10 ns. *)
Definition qubit_ns : qubit_params :=
  {| gateTime_value := 60; gateTime_unit := "ns"; buffer_value := 10 |}.

Definition backend_ns : list qubit_params := repeat qubit_ns 5.

(** The same backend reporting its times in microseconds. *)
Definition qubit_us : qubit_params :=
  {| gateTime_value := 60 # 1000; gateTime_unit := "us";
     buffer_value := 10 # 1000 |}.

Definition backend_us : list qubit_params := repeat qubit_us 5.

Definition setup_T1 : setup :=
  {| unit := "ns";
     s_time_per_step := time_per_step T1 qubit_ns;
     qc_dict := build_qc_dict T1 (steps T1) |}.

Definition setup_T1_us : setup :=
  {| unit := "us";
     s_time_per_step := time_per_step T1 qubit_us;
     qc_dict := build_qc_dict T1 (steps T1) |}.

(** A histogram of 1024 shots of qubit 3. *)
Definition counts_3 : counts := [("00000", 256%Z); ("01000", 768%Z)].

(** The same histogram with its keys in the other order. *)
Definition counts_3_swapped : counts := [("01000", 768%Z); ("00000", 256%Z)].

(** A histogram in which only one outcome occurred. *)
Definition counts_ground : counts := [("00000", 1024%Z)].

Definition result_of (c : nat -> counts) (n : nat) : run_result :=
  map (fun ii => (step_name ii, c ii)) (seq 0 n).

Definition result_T1 : run_result := result_of (fun _ => counts_3) 10.

(** Step 0 has a single key. *)
Definition result_one_key : run_result :=
  result_of (fun _ => counts_ground) 10.

(** Step 4 lacks the key selected at step 0. *)
Definition result_missing : run_result :=
  result_of (fun ii => if Nat.eqb ii 4 then counts_ground else counts_3) 10.

Definition data_point : Q * R :=
  ((inject_Z 768 / inject_Z 1024)%Q,
   sigma (inject_Z 768 / inject_Z 1024)%Q 1024).

(** A fitter that does not converge. *)
Definition failing_fit (c : fit_call) : Py.result (list R * list (list R)) :=
  Py.raise (Py.FitError "Optimal parameters not found").

(** A fitter that returns a fixed exponential fit. *)
Definition constant_fit (c : fit_call) : Py.result (list R * list (list R)) :=
  Py.ret ([0.5; 50; 0.25]%R,
          [[0.01; 0; 0]; [0; 4; 0]; [0; 0; 0.01]]%R).

Definition answer_ex : PyDict.dict Z :=
  [("000000000000001", 950%Z); ("000000000000011", 29%Z);
   ("100000000000001", 21%Z)].

End Samples.

(** ** The Deutsch-Josza notebook: filtering of the histogram *)

Module DeutschJosza.

Definition shots : Z := 1000.

(** [int(0.03 * shots)] *)
Definition threshold : Z := 30.

(** [np.sum] of a list of Python integers: the sum in a signed 64-bit
    accumulator. *)
Definition wrap64 (z : Z) : Z :=
  ((z + 2 ^ 63) mod 2 ^ 64 - 2 ^ 63)%Z.

Definition np_sum (l : list Z) : Z :=
  fold_left (fun acc v => wrap64 (acc + v)) l 0%Z.

(** [{k: v for k,v in answer.items() if v >= threshold}] *)
Definition kept (answer : PyDict.dict Z) (threshold : Z) : PyDict.dict Z :=
  filter (fun kv => (snd kv >=? threshold)%Z) (PyDict.items answer).

(** [np.sum([v for k,v in answer.items() if v < threshold])] *)
Definition removedCounts (answer : PyDict.dict Z) (threshold : Z) : Z :=
  np_sum (map snd (filter (fun kv => (snd kv <? threshold)%Z)
                          (PyDict.items answer))).

Definition filteredAnswer (answer : PyDict.dict Z) (threshold : Z)
  : PyDict.dict Z :=
  PyDict.set (kept answer threshold) "other_bitstring"
             (removedCounts answer threshold).

End DeutschJosza.

(** ** Shape of the coherence circuits *)

Module Shape.

Import Circuit.

(** The qubit a gate acts on. *)
Definition gate_qubit (g : gate) : nat :=
  match g with
  | X q | H q | Iden q | Barrier q | U1 _ q | Measure q _ => q
  end.

Definition is_measure (g : gate) : bool :=
  match g with Measure _ _ => true | _ => false end.

(** [N] times the pair appended by one iteration of [pad_QId]. *)
Fixpoint padding (N : nat) (qr : nat) : circuit :=
  match N with
  | O => []
  | S N' => Barrier qr :: Iden qr :: padding N' qr
  end.

End Shape.

(** ** What a completed arrange cell shows *)

Module Shown.

Import Coherence.

(** The line a [print] statement shows for the fit [popt] and the
    errors [errs]. *)
Definition print_line (popt errs : list R) (l : string * nat * R * R)
  : event :=
  let '(label, i, kv, ke) := l in
  Print label (kv * nth i popt 0)%R (ke * nth i errs 0)%R.

(** Number of parameters of a fit: one per bound of the call. *)
Definition nparams (e : experiment) : nat :=
  List.length (fst (bounds_of e)).

(** A fitter that raises unless it is given ten points. *)
Definition picky_fit (c : fit_call) : Py.result (list R * list (list R)) :=
  if Nat.eqb (List.length (xdata c)) 10 then Samples.constant_fit c
  else Samples.failing_fit c.

(** A namespace in which an earlier cell has bound [punit]. *)
Definition after_ns_cell : namespace :=
  bind_punit fresh (Some "$\mu$s").

End Shown.

(** ** The Deutsch-Josza notebook: the circuit *)

Module DJCircuit.

(** The gates of [djCircuit]; [barrier()] without argument acts on all
    qubits. *)
Inductive gate : Type :=
| H (q : nat)
| X (q : nat)
| Iden (q : nat)
| CX (control target : nat)
| Barrier
| Measure (q c : nat).

Definition circuit : Type := list gate.

(** The length of the first register. *)
Definition n : nat := 15.

(** The condition [a & (1 << i)]. *)
Definition bit_set (a : Z) (i : nat) : bool :=
  negb (Z.land a (Z.shiftl 1 (Z.of_nat i)) =? 0)%Z.

(** [for i in range(n): djCircuit.h(qr[i])] *)
Definition hadamards (n : nat) : circuit := map H (seq 0 n).

(** [for i in range(n): if (a & (1 << i)): djCircuit.cx(qr[i], qr[n])],
    over the indices [idx] still to visit. *)
Fixpoint cx_loop (a : Z) (target : nat) (idx : list nat) : circuit :=
  match idx with
  | [] => []
  | i :: rest =>
      (if bit_set a i then [CX i target] else []) ++ cx_loop a target rest
  end.

(** The gates between the two barriers. *)
Definition oracle (n : nat) (oracleType oracleValue a : Z) : circuit :=
  if (oracleType =? 0)%Z then
    if (oracleValue =? 1)%Z then [X n] else [Iden n]
  else cx_loop a n (seq 0 n).

(** [for i in range(n): djCircuit.measure(qr[i], cr[i])] *)
Definition measurements (n : nat) : circuit :=
  map (fun i => Measure i i) (seq 0 n).

Definition djCircuit (n : nat) (oracleType oracleValue a : Z) : circuit :=
  hadamards n ++ [X n; H n] ++ [Barrier]
    ++ oracle n oracleType oracleValue a
    ++ [Barrier] ++ hadamards n ++ measurements n.

Definition is_cx (g : gate) : bool :=
  match g with CX _ _ => true | _ => false end.

(** Number of bits set among the [n] low bits of [a]. *)
Definition popcount (a : Z) (n : nat) : nat :=
  List.length (filter (fun i => Z.testbit a (Z.of_nat i)) (seq 0 n)).

(** A computational-basis state: one bit per qubit. *)
Definition state : Type := nat -> bool.

Definition flip (s : state) (q : nat) : state :=
  fun k => if Nat.eqb k q then negb (s k) else s k.

(** The action of a gate on a basis state, for the gates that map basis
    states to basis states: [x] negates its qubit, [cx] negates the target
    when the control is set, [iden] and the barrier do nothing. *)
Definition classical_gate (g : gate) (s : state) : option state :=
  match g with
  | X q => Some (flip s q)
  | Iden _ => Some s
  | CX c t => Some (if s c then flip s t else s)
  | Barrier => Some s
  | H _ | Measure _ _ => None
  end.

Fixpoint classical_run (c : circuit) (s : state) : option state :=
  match c with
  | [] => Some s
  | g :: rest =>
      match classical_gate g s with
      | Some s' => classical_run rest s'
      | None => None
      end
  end.

(** The inner product modulo 2 of the [n] low bits of [a] with the bits
    of the first [n] qubits. *)
Fixpoint inner (a : Z) (x : state) (n : nat) : bool :=
  match n with
  | O => false
  | S k => xorb (inner a x k) (Z.testbit a (Z.of_nat k) && x k)
  end.

(** All assignments of the first [n] qubits, the bit of qubit [i] at
    position [i]. *)
Fixpoint all_inputs (n : nat) : list (list bool) :=
  match n with
  | O => [[]]
  | S k => flat_map (fun l => [l ++ [false]; l ++ [true]]) (all_inputs k)
  end.

Definition state_of (l : list bool) : state := fun k => nth k l false.

(** Number of inputs on which the function [f] of the first register has
    the value 1. *)
Definition count_ones (f : state -> bool) (n : nat) : nat :=
  List.length (filter (fun l => f (state_of l)) (all_inputs n)).

(** Whether the gates between the barriers negate the answer qubit on
    the basis state [x]. *)
Definition answer_flip (n : nat) (oracleType oracleValue a : Z) (x : state)
  : bool :=
  match classical_run (oracle n oracleType oracleValue a) x with
  | Some s' => xorb (x n) (s' n)
  | None => false
  end.

End DJCircuit.

(** ** The fit problem of the notebook *)

Module Fit.

Import Coherence.









End Fit.

(** ** More sample inputs *)

Module MoreSamples.

Import Coherence Samples.

(** The bitstring of a register of [width] classical bits in which only
    bit [q] is set; the leftmost character is the highest bit. *)
Fixpoint excited_bitstring (width q : nat) : string :=
  match width with
  | O => EmptyString
  | S k => String (if Nat.eqb k q then "1"%char else "0"%char)
                  (excited_bitstring k q)
  end.

(** Every step returns the histogram that lists the excited outcome
    first. *)
Definition result_swapped : run_result :=
  result_of (fun _ => counts_3_swapped) 10.

(** Twenty steps, for the echo cell. *)
Definition result_echo : run_result := result_of (fun _ => counts_3) 20.


End MoreSamples.

(** * Properties *)

(** ** Dictionaries *)

Module PyDictFacts.

Import PyDict.

Section Facts.
Context {V : Type}.
Implicit Types (d : dict V) (k : string) (v : V).

Lemma get_None_notin d k : get d k = None <-> ~ In k (keys d).
Proof.
  induction d as [|[k' v'] d IH]; simpl.
  - tauto.
  - destruct (String.eqb_spec k k') as [->|Hne].
    + split; [discriminate | intros Hn; exfalso; apply Hn; now left].
    + rewrite IH. split.
      * intros Hn [Heq|Hin]; [now apply Hne | now apply Hn].
      * intros Hn Hin. apply Hn. now right.
Qed.

Lemma get_Some_in d k v : get d k = Some v -> In (k, v) d.
Proof.
  induction d as [|[k' v'] d IH]; simpl; [discriminate|].
  destruct (String.eqb_spec k k') as [->|Hne].
  - intros [= ->]. now left.
  - intros Hg. right. now apply IH.
Qed.

(** Assigning a new key appends the item. *)
Lemma set_new d k v : ~ In k (keys d) -> set d k v = d ++ [(k, v)].
Proof.
  induction d as [|[k' v'] d IH]; simpl; intros Hn.
  - reflexivity.
  - destruct (String.eqb_spec k k') as [->|Hne].
    + exfalso. apply Hn. now left.
    + rewrite IH; [reflexivity|]. intros Hin. apply Hn. now right.
Qed.

(** Assigning an existing key keeps the keys and their order. *)
Lemma keys_set_old d k v : In k (keys d) -> keys (set d k v) = keys d.
Proof.
  induction d as [|[k' v'] d IH]; simpl; intros Hin.
  - contradiction.
  - destruct (String.eqb_spec k k') as [->|Hne]; simpl.
    + reflexivity.
    + f_equal. apply IH. destruct Hin as [Heq|Hin]; [|assumption].
      exfalso. now apply Hne.
Qed.

Lemma get_set_new d k v : ~ In k (keys d) -> get (set d k v) k = Some v.
Proof.
  induction d as [|[k' v'] d IH]; simpl; intros Hn.
  - now rewrite String.eqb_refl.
  - destruct (String.eqb k k') eqn:E.
    + apply String.eqb_eq in E. subst k'. exfalso. apply Hn. now left.
    + simpl. rewrite E. apply IH. intros Hin. apply Hn. now right.
Qed.

Lemma get_app d1 d2 k :
  get (d1 ++ d2) k = match get d1 k with Some v => Some v | None => get d2 k end.
Proof.
  induction d1 as [|[k' v'] d1 IH]; simpl; [reflexivity|].
  now destruct (String.eqb k k').
Qed.

Lemma keys_app d1 d2 : keys (d1 ++ d2) = keys d1 ++ keys d2.
Proof. apply map_app. Qed.

Lemma keys_filter_incl (p : string * V -> bool) d k :
  In k (keys (filter p d)) -> In k (keys d).
Proof.
  unfold keys. rewrite !in_map_iff.
  intros [kv [Hk Hin]]. exists kv. split; [assumption|].
  apply filter_In in Hin. tauto.
Qed.

End Facts.

Lemma sumZ_cons v l : sumZ (v :: l) = (v + sumZ l)%Z.
Proof. reflexivity. Qed.

Lemma sumZ_app l1 l2 : sumZ (l1 ++ l2) = (sumZ l1 + sumZ l2)%Z.
Proof.
  induction l1 as [|v l1 IH];
    rewrite ?app_nil_l, <- ?app_comm_cons, ?sumZ_cons; [reflexivity | lia].
Qed.

Lemma sumZ_nonneg l : Forall (fun v => (0 <= v)%Z) l -> (0 <= sumZ l)%Z.
Proof. induction 1; rewrite ?sumZ_cons; [reflexivity | lia]. Qed.

Lemma in_values_le_total (c : dict Z) v :
  Forall (fun v => (0 <= v)%Z) (values c) -> In v (values c) ->
  (0 <= v <= total c)%Z.
Proof.
  unfold total. induction (values c) as [|w l IH]; intros Hpos Hin.
  - contradiction.
  - inversion Hpos as [|? ? Hw Hl]; subst.
    pose proof (sumZ_nonneg l Hl) as Hsum.
    rewrite sumZ_cons.
    destruct Hin as [->|Hin]; [lia|].
    specialize (IH Hl Hin). lia.
Qed.

End PyDictFacts.

(** ** Deutsch-Josza: the filtered histogram *)

Module DeutschJoszaFacts.

Import PyDict PyDictFacts DeutschJosza Samples.
Local Open Scope Z_scope.

Lemma wrap64_small z : - 2 ^ 63 <= z < 2 ^ 63 -> wrap64 z = z.
Proof.
  intros Hz. unfold wrap64.
  rewrite Z.mod_small by lia. lia.
Qed.


(** On non-negative counts whose total fits, the 64-bit accumulator of
    [np.sum] never wraps. *)
Lemma np_sum_acc l : forall acc,
  Forall (fun v => 0 <= v) l -> 0 <= acc -> acc + sumZ l < 2 ^ 63 ->
  fold_left (fun a v => wrap64 (a + v)) l acc = acc + sumZ l.
Proof.
  induction l as [|v l IH]; cbn [fold_left]; intros acc Hl Hacc Hb.
  - cbn. lia.
  - rewrite sumZ_cons in *.
    inversion Hl as [|? ? Hv Hl']; subst.
    pose proof (sumZ_nonneg l Hl') as Hs.
    rewrite wrap64_small by lia.
    rewrite IH by (try assumption; lia). lia.
Qed.

Lemma np_sum_exact l :
  Forall (fun v => 0 <= v) l -> sumZ l < 2 ^ 63 -> np_sum l = sumZ l.
Proof.
  intros Hl Hb. unfold np_sum. rewrite np_sum_acc; auto; lia.
Qed.

(** The entries below the threshold and the entries at or above it
    split the total. *)
Lemma split_total (d : dict Z) t :
  sumZ (map snd (filter (fun kv => snd kv >=? t) d))
  + sumZ (map snd (filter (fun kv => snd kv <? t) d))
  = sumZ (map snd d).
Proof.
  induction d as [|[k v] d IH]; [reflexivity|].
  cbn [filter map snd]. rewrite sumZ_cons.
  destruct (Z.geb_spec v t), (Z.ltb_spec v t);
    cbn [map snd]; rewrite ?sumZ_cons; lia.
Qed.

Lemma removed_nonneg (d : dict Z) t :
  Forall (fun v => 0 <= v) (map snd d) ->
  Forall (fun v => 0 <= v) (map snd (filter (fun kv => snd kv <? t) d)).
Proof.
  induction d as [|[k v] d IH]; simpl; intros Hd; [constructor|].
  inversion Hd; subst.
  destruct (v <? t); simpl; [constructor|]; auto.
Qed.

Lemma kept_nonneg (d : dict Z) t :
  Forall (fun v => 0 <= v) (map snd d) ->
  0 <= sumZ (map snd (filter (fun kv => snd kv >=? t) d)).
Proof.
  intros Hd. apply sumZ_nonneg.
  induction d as [|[k v] d IH]; simpl in *; [constructor|].
  inversion Hd; subst.
  destruct (v >=? t); simpl; [constructor|]; auto.
Qed.

Lemma total_app (d1 d2 : dict Z) : total (d1 ++ d2) = total d1 + total d2.
Proof.
  unfold total, values. now rewrite map_app, sumZ_app.
Qed.

(** C10. Filtering the Deutsch-Josza histogram preserves the total
    count: when ['other_bitstring'] is not a key of the answer mapping
    (a mapping of measured counts: non-negative integers whose total
    fits the 64-bit accumulator of [np.sum]), the values of
    [filteredAnswer], the entries with count [>= threshold] and the
    entry ['other_bitstring'] holding the sum of the removed counts,
    add up to the sum of the values of [answer]. *)
Theorem filteredAnswer_total (answer : dict Z) (t : Z) :
  ~ In "other_bitstring"%string (keys answer) ->
  Forall (fun v => 0 <= v) (values answer) ->
  total answer < 2 ^ 63 ->
  get (filteredAnswer answer t) "other_bitstring" = Some (removedCounts answer t)
  /\ total (filteredAnswer answer t) = total answer.
Proof.
  intros Hnew Hpos Hfit.
  assert (Hk : ~ In "other_bitstring"%string (keys (kept answer t))).
  { intros Hin. apply Hnew. eapply keys_filter_incl. exact Hin. }
  pose proof (split_total answer t) as Hsplit.
  pose proof (kept_nonneg answer t Hpos) as Hkept.
  assert (Hrem : removedCounts answer t
                 = sumZ (map snd (filter (fun kv => snd kv <? t) answer))).
  { unfold removedCounts, items. apply np_sum_exact.
    - now apply removed_nonneg.
    - unfold total, values in Hfit. lia. }
  unfold filteredAnswer. split.
  - now apply get_set_new.
  - rewrite (set_new _ _ _ Hk), total_app, Hrem.
    unfold total, values, kept, items in *. cbn [map snd].
    rewrite sumZ_cons. cbn [sumZ fold_right]. lia.
Qed.

Lemma filteredAnswer_total_witness :
  get (filteredAnswer answer_ex threshold) "other_bitstring"
    = Some (removedCounts answer_ex threshold)
  /\ total (filteredAnswer answer_ex threshold) = total answer_ex.
Proof.
  apply (filteredAnswer_total answer_ex threshold).
  - simpl. intros [H|[H|[H|[]]]]; discriminate.
  - unfold answer_ex, values. simpl.
    repeat (apply Forall_cons; [lia|]). apply Forall_nil.
  - vm_compute. reflexivity.
Defined.

End DeutschJoszaFacts.

(** ** The construction cells *)

Module ConstructFacts.

Import PyDict PyDictFacts Circuit Coherence.

Lemma str_inj n m : Py.str n = Py.str m -> n = m.
Proof.
  unfold Py.str. intros Heq.
  apply Unsigned.to_uint_inj.
  assert (Hs : Some (Nat.to_uint n) = Some (Nat.to_uint m)).
  { rewrite <- (NilEmpty.usu (Nat.to_uint n)), <- (NilEmpty.usu (Nat.to_uint m)).
    now rewrite Heq. }
  now injection Hs.
Qed.

Lemma step_name_inj n m : step_name n = step_name m -> n = m.
Proof.
  unfold step_name. simpl. intros Heq. apply str_inj. now injection Heq.
Qed.

Example step_name_0 : step_name 0 = "step_0".
Proof. reflexivity. Qed.

Example step_name_12 : step_name 12 = "step_12".
Proof. reflexivity. Qed.

(** The construction loop creates one entry per step, in the order of
    the step numbers. *)
Lemma keys_build_qc_dict e n :
  keys (build_qc_dict e n) = map step_name (seq 0 n).
Proof.
  induction n as [|n IH]; [reflexivity|].
  cbn [build_qc_dict]. rewrite set_new.
  - rewrite keys_app, IH, seq_S, map_app. reflexivity.
  - rewrite IH, in_map_iff. intros [m [Hm Hin]].
    apply step_name_inj in Hm. apply in_seq in Hin. lia.
Qed.

Lemma length_keys_build_qc_dict e n :
  List.length (keys (build_qc_dict e n)) = n.
Proof. now rewrite keys_build_qc_dict, length_map, length_seq. Qed.

Lemma get_build_qc_dict e n ii :
  ii < n -> get (build_qc_dict e n) (step_name ii) = Some (step_circuit e ii).
Proof.
  induction n as [|n IH]; [lia|]. intros Hlt.
  cbn [build_qc_dict].
  assert (Hnew : ~ In (step_name n) (keys (build_qc_dict e n))).
  { rewrite keys_build_qc_dict, in_map_iff. intros [m [Hm Hin]].
    apply step_name_inj in Hm. apply in_seq in Hin. lia. }
  rewrite (set_new _ _ _ Hnew).
  destruct (Nat.eq_dec ii n) as [->|Hne].
  - rewrite <- (set_new _ _ _ Hnew). now apply get_set_new.
  - rewrite get_app, IH by lia. reflexivity.
Qed.

Lemma construct_ok e backend s :
  construct e backend = inr s ->
  exists params,
    nth_error backend (qubit e) = Some params
    /\ unit s = gateTime_unit params
    /\ s_time_per_step s = time_per_step e params
    /\ qc_dict s = build_qc_dict e (steps e).
Proof.
  unfold construct, Py.index, Py.bind.
  destruct (nth_error backend (qubit e)) as [params|]; [|discriminate].
  cbn [Py.ret]. destruct (f_set e params) as [x|fs]; [discriminate|].
  intros [= <-]. exists params. repeat split.
Qed.

(** The T2* cell divides by [steps*time_per_step] before it builds its
    circuits. *)
Lemma construct_T2star_zero_time backend params :
  nth_error backend (qubit T2star) = Some params ->
  (time_per_step T2star params == 0)%Q ->
  construct T2star backend = inl Py.ZeroDivisionError.
Proof.
  intros Hn Hz. unfold construct, Py.index, Py.bind. rewrite Hn.
  cbn [Py.ret f_set].
  assert (Hq : Qeq_bool (Qnat (steps T2star) * time_per_step T2star params) 0
               = true).
  { apply Qeq_bool_iff. rewrite Hz. ring. }
  now rewrite Hq.
Qed.

(** [pad_QId] appends, and adds exactly [N] identity gates. *)
Lemma pad_QId_app circ N q :
  exists tail, pad_QId circ N q = circ ++ tail /\ count_iden tail = N.
Proof.
  revert circ. induction N as [|N IH]; intros circ.
  - exists []. now rewrite app_nil_r.
  - cbn [pad_QId]. destruct (IH (circ ++ [Barrier q; Iden q])) as [t [Ht Hc]].
    exists ([Barrier q; Iden q] ++ t). split.
    + now rewrite Ht, <- app_assoc.
    + unfold count_iden in *. rewrite filter_app, length_app, Hc. reflexivity.
Qed.

Lemma count_iden_app c1 c2 :
  count_iden (c1 ++ c2) = count_iden c1 + count_iden c2.
Proof. unfold count_iden. now rewrite filter_app, length_app. Qed.

Lemma count_iden_pad_QId circ N q :
  count_iden (pad_QId circ N q) = count_iden circ + N.
Proof.
  destruct (pad_QId_app circ N q) as [t [-> Hc]].
  now rewrite count_iden_app, Hc.
Qed.

Lemma count_iden_echo_train circ n pad q :
  count_iden (echo_train circ n pad q) = count_iden circ + n * pad.
Proof.
  revert circ. induction n as [|n IH]; intros circ; cbn [echo_train].
  - lia.
  - rewrite IH, count_iden_app, count_iden_pad_QId. cbn. lia.
Qed.

Lemma count_iden_step_circuit e ii :
  count_iden (step_circuit e ii) = idens e ii.
Proof.
  destruct e; unfold step_circuit, idens;
    rewrite count_iden_app, ?count_iden_pad_QId, ?count_iden_app,
      ?count_iden_pad_QId, ?count_iden_echo_train; cbn [count_iden filter is_iden List.length app]; lia.
Qed.

End ConstructFacts.

(** ** The delay times handed to the fitter *)

Module XvalsFacts.

Import PyDict PyDictFacts Circuit Coherence ConstructFacts.
Local Open Scope Q_scope.

Lemma Qnat_S n : Qnat (S n) == Qnat n + 1.
Proof.
  unfold Qnat. rewrite Nat2Z.inj_succ, <- Z.add_1_r, inject_Z_plus. reflexivity.
Qed.

Lemma Qnat_pos n : (0 < n)%nat -> 0 < Qnat n.
Proof.
  intros Hn. unfold Qnat, Qlt. simpl. lia.
Qed.

Lemma Qnat_nonzero n : (0 < n)%nat -> ~ Qnat n == 0.
Proof.
  intros Hn Heq. pose proof (Qnat_pos n Hn) as Hp. rewrite Heq in Hp.
  now apply Qlt_irrefl in Hp.
Qed.

Lemma Qdiv_cancel a b c : ~ c == 0 -> a / c == b / c -> a == b.
Proof.
  intros Hc H.
  setoid_replace a with (a / c * c) by (field; exact Hc).
  rewrite H. field. exact Hc.
Qed.

(** The samples of [np.linspace(0, n, n)]: sample [ii] is
    [ii * n / (n - 1)], not [ii]. *)
Lemma linspace_0_n_n n ii :
  (2 <= n)%nat -> (ii < n)%nat ->
  exists v, nth_error (linspace 0 (Qnat n) n) ii = Some v
            /\ v == Qnat ii * Qnat n / Qnat (n - 1).
Proof.
  intros Hn Hii. unfold linspace.
  destruct n as [|[|m]]; try lia.
  replace (S (S m) - 1)%nat with (S m) by lia.
  assert (Hnz : ~ Qnat (S m) == 0) by (apply Qnat_nonzero; lia).
  destruct (Nat.eq_dec ii (S m)) as [->|Hne].
  - exists (Qnat (S (S m))). split.
    + rewrite nth_error_app2; rewrite length_map, length_seq; [|lia].
      now rewrite Nat.sub_diag.
    + field. exact Hnz.
  - eexists. split.
    + rewrite nth_error_app1 by (rewrite length_map, length_seq; lia).
      rewrite nth_error_map, nth_error_seq.
      destruct (Nat.ltb_spec ii (S m)); [|lia]. simpl. reflexivity.
    + field. exact Hnz.
Qed.

(** The x values of the fit after a construction cell:
    [xvals[ii] = time_per_step * (ii * steps / (steps - 1)) / plot_factor]. *)
Lemma xvals_nth e backend s ii :
  construct e backend = inr s -> (ii < steps e)%nat ->
  exists x, nth_error (xvals s) ii = Some x
            /\ x == s_time_per_step s
                    * (Qnat ii * Qnat (steps e) / Qnat (steps e - 1))
                    / plot_factor (unit s).
Proof.
  intros Hc Hii.
  destruct (construct_ok _ _ _ Hc) as [params [_ [_ [_ Hd]]]].
  unfold xvals. rewrite Hd, length_keys_build_qc_dict.
  destruct (linspace_0_n_n (steps e) ii) as [v [Hv Heq]];
    [destruct e; simpl; lia | assumption |].
  eexists. split.
  - rewrite nth_error_map, Hv. simpl. reflexivity.
  - rewrite Heq. reflexivity.
Qed.

Lemma length_xvals e backend s :
  construct e backend = inr s -> List.length (xvals s) = steps e.
Proof.
  intros Hc.
  destruct (construct_ok _ _ _ Hc) as [params [_ [_ [_ Hd]]]].
  unfold xvals. rewrite length_map, Hd, length_keys_build_qc_dict.
  unfold linspace. destruct (steps e) as [|[|m]]; try reflexivity.
  rewrite length_app, length_map, length_seq. simpl. lia.
Qed.

Example find_ns : Py.find "ns" "ns" = 0%Z.
Proof. reflexivity. Qed.

Example find_us : Py.find "us" "ns" = (-1)%Z.
Proof. reflexivity. Qed.

Example linspace_0_4_4 :
  map Qred (linspace 0 4 4) = [0; 4 # 3; 8 # 3; 4].
Proof. reflexivity. Qed.

Lemma plot_factor_cases u :
  (Py.find u "ns" = (-1)%Z /\ plot_factor u = 1
                            /\ forall p, punit_after u p = p)
  \/ ((-1 < Py.find u "ns")%Z /\ plot_factor u = 1000
      /\ forall p, punit_after u p = Some "$\mu$s"%string).
Proof.
  unfold plot_factor, punit_after, Py.find.
  destruct (index 0 "ns" u) as [n|].
  - right. destruct (Z.gtb_spec (Z.of_nat n) (-1)); [|lia].
    repeat split; lia.
  - left. destruct (Z.gtb_spec (-1) (-1)); [lia|]. repeat split.
Qed.

Lemma plot_factor_nonzero u : ~ plot_factor u == 0.
Proof.
  destruct (plot_factor_cases u) as [[_ [-> _]]|[_ [-> _]]]; discriminate.
Qed.

(** The x value of step [ii] is the delay [ii * time_per_step] (in the
    plot unit) only at step 0, unless the gate times are zero. *)
Lemma xvals_off e backend s ii x :
  construct e backend = inr s -> (ii < steps e)%nat ->
  nth_error (xvals s) ii = Some x ->
  (x == Qnat ii * s_time_per_step s / plot_factor (unit s)
   <-> ii = 0%nat \/ s_time_per_step s == 0).
Proof.
  intros Hc Hii Hx.
  destruct (xvals_nth e backend s ii Hc Hii) as [x' [Hx' Heq]].
  rewrite Hx in Hx'. injection Hx' as <-.
  pose proof (plot_factor_nonzero (unit s)) as Hpf.
  assert (Hs : (2 <= steps e)%nat) by (destruct e; simpl; lia).
  assert (Hn1 : ~ Qnat (steps e - 1) == 0) by (apply Qnat_nonzero; lia).
  assert (Hsteps : Qnat (steps e) == Qnat (steps e - 1) + 1).
  { rewrite <- Qnat_S. replace (S (steps e - 1)) with (steps e) by lia.
    reflexivity. }
  rewrite Heq, Hsteps. split.
  - intros H.
    assert (Hz : Qnat ii * s_time_per_step s == 0).
    { assert (H' : s_time_per_step s
                   * (Qnat ii * (Qnat (steps e - 1) + 1) / Qnat (steps e - 1))
                   == Qnat ii * s_time_per_step s).
      { apply (Qdiv_cancel _ _ _ Hpf). exact H. }
      assert (H'' : Qnat ii * s_time_per_step s * (Qnat (steps e - 1) + 1)
                    == Qnat ii * s_time_per_step s * Qnat (steps e - 1)).
      { rewrite <- H' at 2. field. exact Hn1. }
      setoid_replace (Qnat ii * s_time_per_step s)
        with (Qnat ii * s_time_per_step s * (Qnat (steps e - 1) + 1)
              - Qnat ii * s_time_per_step s * Qnat (steps e - 1)) by ring.
      rewrite H''. ring. }
    apply Qmult_integral in Hz. destruct Hz as [Hz|Hz]; [left|now right].
    destruct ii as [|ii]; [reflexivity|].
    exfalso. revert Hz. apply Qnat_nonzero. lia.
  - intros [->|Hz].
    + assert (H0 : Qnat 0 == 0) by reflexivity.
      rewrite !H0. field. split; assumption.
    + rewrite Hz. field. split; assumption.
Qed.

(** The padded identity gates of step [ii] last [ii * time_per_step] in
    the T1, T2* and echo circuits. *)
Lemma delay_time_per_step e p ii :
  e <> CPMG -> delay e p ii == Qnat ii * time_per_step e p.
Proof.
  intros He. unfold delay. rewrite count_iden_step_circuit.
  assert (Hmul : forall a b, Qnat (a * b) == Qnat a * Qnat b).
  { intros a b. unfold Qnat. rewrite Nat2Z.inj_mul, inject_Z_mult. reflexivity. }
  destruct e; try congruence; unfold idens, time_per_step;
    repeat rewrite Hmul; ring.
Qed.

(** In the CPMG cell [time_per_step] also counts the [num_echo] X gates,
    once per step. *)
Lemma delay_CPMG p ii :
  delay CPMG p ii + Qnat ii * Qnat num_echo * tot_length p
  == Qnat ii * time_per_step CPMG p.
Proof.
  unfold delay. rewrite count_iden_step_circuit.
  assert (Hmul : forall a b, Qnat (a * b) == Qnat a * Qnat b).
  { intros a b. unfold Qnat. rewrite Nat2Z.inj_mul, inject_Z_mult. reflexivity. }
  assert (Hadd : forall a b, Qnat (a + b) == Qnat a + Qnat b).
  { intros a b. unfold Qnat. rewrite Nat2Z.inj_add, inject_Z_plus. reflexivity. }
  unfold idens, time_per_step.
  repeat (rewrite Hmul || rewrite Hadd). ring.
Qed.

(** C1 (evaluation at a failing input). On a backend with a gate time
    of 60 ns and a buffer of 10 ns, the identity gates of step 1 of the
    T1 experiment last [1 * time_per_step = 5600 ns = 28/5] microseconds,
    but the x value the T1 cell computes for step 1 is [56/9]
    microseconds: [np.linspace(0, 10, 10)] has the samples [ii * 10/9]. *)
Theorem xvals_T1_step_1 :
  construct T1 Samples.backend_ns = inr Samples.setup_T1
  /\ option_map Qred (nth_error (xvals Samples.setup_T1) 1) = Some (56 # 9)
  /\ Qred (delay T1 Samples.qubit_ns 1 / plot_factor (unit Samples.setup_T1))
     = 28 # 5
  /\ Qred (Qnat 1 * s_time_per_step Samples.setup_T1
           / plot_factor (unit Samples.setup_T1)) = 28 # 5.
Proof.
  split; [reflexivity|]. split; [vm_compute; reflexivity|].
  split; vm_compute; reflexivity.
Qed.

End XvalsFacts.

(** ** The data loop: probabilities and standard errors *)

Module ExtractFacts.

Import PyDict PyDictFacts Coherence.

Lemma extract_step_ok r keys_0_1 shots key p sg :
  extract_step r keys_0_1 shots key = inr (p, sg) ->
  exists c k v,
    get_counts r key = inr c
    /\ nth_error keys_0_1 1 = Some k
    /\ get c k = Some v
    /\ shots <> 0%Z
    /\ p = (inject_Z v / inject_Z shots)%Q
    /\ sg = sigma p shots.
Proof.
  unfold extract_step, Py.bind, Py.index, getitem, normalize, Py.ret, Py.raise.
  destruct (get_counts r key) as [x|c]; [discriminate|].
  destruct (nth_error keys_0_1 1) as [k|]; [|discriminate].
  destruct (get c k) as [v|] eqn:Hv; [|discriminate].
  destruct (Z.eqb_spec shots 0); [discriminate|].
  intros [= <- <-]. exists c, k, v. repeat split; auto.
Qed.

Lemma extract_loop_ok r keys_0_1 shots ks : forall ds,
  extract_loop r keys_0_1 shots ks = inr ds ->
  Forall2 (fun key d => extract_step r keys_0_1 shots key = inr d) ks ds.
Proof.
  induction ks as [|key ks IH]; cbn [extract_loop]; intros ds.
  - intros [= <-]. constructor.
  - unfold Py.bind at 1.
    destruct (extract_step r keys_0_1 shots key) as [x|d] eqn:Hd; [discriminate|].
    unfold Py.bind at 1.
    destruct (extract_loop r keys_0_1 shots ks) as [x|ds'] eqn:Hds; [discriminate|].
    intros [= <-]. constructor; auto.
Qed.

Lemma extract_loop_length r keys_0_1 shots ks ds :
  extract_loop r keys_0_1 shots ks = inr ds -> List.length ds = List.length ks.
Proof.
  intros H. apply extract_loop_ok in H. symmetry.
  induction H; simpl; congruence.
Qed.

(** The first step that raises decides the exception of the loop. *)
Lemma extract_loop_raises r keys_0_1 shots ks x :
  (exists key, In key ks /\ extract_step r keys_0_1 shots key = inl x) ->
  (forall key y, In key ks -> extract_step r keys_0_1 shots key = inl y -> y = x) ->
  extract_loop r keys_0_1 shots ks = inl x.
Proof.
  induction ks as [|key ks IH]; intros [k0 [Hin Hk0]] Hall.
  - contradiction.
  - cbn [extract_loop]. unfold Py.bind at 1.
    destruct (extract_step r keys_0_1 shots key) as [y|d] eqn:Hd.
    + f_equal. apply (Hall key); [now left | assumption].
    + unfold Py.bind at 1. rewrite IH; [reflexivity| |].
      * destruct Hin as [->|Hin]; [congruence|]. now exists k0.
      * intros k y Hk. apply Hall. now right.
Qed.

(** The standard error of the code, [sqrt(p*(1-p))/sqrt(shots)], is the
    binomial one. *)
Lemma sigma_binomial p shots :
  (0 < shots)%Z ->
  sigma p shots = sqrt (Q2R p * (1 - Q2R p) / IZR shots).
Proof.
  intros Hs. unfold sigma.
  rewrite Q2R_mult, Q2R_minus.
  replace (Q2R 1) with 1%R by (unfold Q2R; simpl; lra).
  symmetry. apply sqrt_div_alt. now apply IZR_lt.
Qed.

(** For every step the data loop completes, the probability is the
    count found under the second entry of [keys_0_1] divided by the
    number of shots, and the standard error is the binomial one,
    [sqrt(p*(1-p)/shots)]. *)
Theorem data_and_sigma r keys_0_1 shots ks ds :
  (0 < shots)%Z ->
  extract_loop r keys_0_1 shots ks = inr ds ->
  Forall2 (fun key d =>
             exists c k v,
               get_counts r key = inr c
               /\ nth_error keys_0_1 1 = Some k
               /\ get c k = Some v
               /\ fst d = (inject_Z v / inject_Z shots)%Q
               /\ snd d = sqrt (Q2R (fst d) * (1 - Q2R (fst d)) / IZR shots))
          ks ds.
Proof.
  intros Hs Hok. apply extract_loop_ok in Hok.
  induction Hok as [|key [p sg] ks ds Hstep _ IH]; constructor; [|exact IH].
  destruct (extract_step_ok _ _ _ _ _ _ Hstep)
    as [c [k [v [Hc [Hk [Hv [_ [Hp Hsg]]]]]]]].
  exists c, k, v. cbn [fst snd]. repeat split; try assumption.
  rewrite Hsg. now apply sigma_binomial.
Qed.

Lemma data_and_sigma_witness :
  Forall2 (fun key d =>
             exists c k v,
               get_counts Samples.result_T1 key = inr c
               /\ nth_error (keys Samples.counts_3) 1 = Some k
               /\ get c k = Some v
               /\ fst d = (inject_Z v / inject_Z shots)%Q
               /\ snd d = sqrt (Q2R (fst d) * (1 - Q2R (fst d)) / IZR shots))
          ["step_0"; "step_1"]%string
          [Samples.data_point; Samples.data_point].
Proof.
  apply (data_and_sigma Samples.result_T1 (keys Samples.counts_3) shots
           ["step_0"; "step_1"]%string
           [Samples.data_point; Samples.data_point]).
  - reflexivity.
  - reflexivity.
Defined.

Lemma normalized_in_unit (v shots : Z) :
  (0 <= v <= shots)%Z -> (0 < shots)%Z ->
  (0 <= inject_Z v / inject_Z shots <= 1)%Q.
Proof.
  intros Hv Hs.
  assert (Hpos : (0 < inject_Z shots)%Q).
  { unfold Qlt. simpl. lia. }
  split.
  - apply Qle_shift_div_l; [assumption|].
    rewrite Qmult_0_l. unfold Qle. simpl. lia.
  - apply Qle_shift_div_r; [assumption|].
    rewrite Qmult_1_l. unfold Qle. simpl. lia.
Qed.

(** C3. For all measured counts (the histograms of circuits run with
    [shots] shots) the normalized probability [count/shots] lies in
    [[0,1]]. *)
Theorem data_in_unit_interval r keys_0_1 shots ks ds :
  (forall key c, In key ks -> get_counts r key = inr c -> histogram shots c) ->
  extract_loop r keys_0_1 shots ks = inr ds ->
  Forall (fun d => (0 <= fst d <= 1)%Q) ds.
Proof.
  intros Hhist Hok. apply extract_loop_ok in Hok.
  induction Hok as [|key [p sg] ks ds Hstep _ IH]; constructor.
  - destruct (extract_step_ok _ _ _ _ _ _ Hstep)
      as [c [k [v [Hc [Hk [Hv [Hnz [Hp _]]]]]]]].
    destruct (Hhist key c (or_introl eq_refl) Hc) as [Hpos Htot].
    assert (Hin : In v (values c)).
    { apply get_Some_in in Hv. unfold values.
      apply in_map_iff. now exists (k, v). }
    pose proof (in_values_le_total c v Hpos Hin) as Hb.
    cbn [fst]. rewrite Hp. apply normalized_in_unit; lia.
  - apply IH. intros k c Hin. apply Hhist. now right.
Qed.

Lemma data_in_unit_interval_witness :
  Forall (fun d => (0 <= fst d <= 1)%Q)
         [Samples.data_point; Samples.data_point].
Proof.
  apply (data_in_unit_interval Samples.result_T1 (keys Samples.counts_3)
           shots ["step_0"; "step_1"]%string
           [Samples.data_point; Samples.data_point]).
  - intros key c [<-|[<-|[]]] [= <-]; (split; [|reflexivity]);
      unfold Samples.counts_3, values; simpl;
      repeat (apply Forall_cons; [lia|]); apply Forall_nil.
  - reflexivity.
Defined.

End ExtractFacts.

(** ** The arrange cells *)

Module ArrangeFacts.

Import PyDict PyDictFacts Coherence Samples.
Import ConstructFacts XvalsFacts ExtractFacts.

(** *** What reaches the fitter *)

Lemma fit_request_ok e s r shots call :
  fit_request e s r shots = inr call ->
  exists c0 ds,
    get_counts r "step_0" = inr c0
    /\ extract_loop r (keys c0) shots (keys (qc_dict s)) = inr ds
    /\ call = make_call e (xvals s) (map fst ds).
Proof.
  unfold fit_request, Py.bind.
  destruct (get_counts r "step_0") as [x|c0]; [discriminate|].
  destruct (extract_loop r (keys c0) shots (keys (qc_dict s))) as [x|ds] eqn:E;
    [discriminate|].
  intros [= <-]. exists c0, ds. repeat split. exact E.
Qed.

Lemma fit_request_fail e s r shots x :
  fit_request e s r shots = inl x ->
  get_counts r "step_0" = inl x
  \/ exists c0, get_counts r "step_0" = inr c0
                /\ extract_loop r (keys c0) shots (keys (qc_dict s)) = inl x.
Proof.
  unfold fit_request, Py.bind.
  destruct (get_counts r "step_0") as [y|c0]; [intros [= <-]; now left|].
  destruct (extract_loop r (keys c0) shots (keys (qc_dict s))) as [y|ds] eqn:E;
    [|discriminate].
  intros [= <-]. right. now exists c0.
Qed.

(** The y values of the call are the probabilities of the data loop:
    for every circuit, in the order of [qc_dict], the count found under
    the second key of the counts of ['step_0'], divided by [shots]. *)
Lemma request_ydata e s r shots call c0 :
  get_counts r "step_0" = inr c0 ->
  fit_request e s r shots = inr call ->
  Forall2 (fun key y =>
             exists c k v,
               get_counts r key = inr c
               /\ excited_key c0 = inr k
               /\ get c k = Some v
               /\ y = (inject_Z v / inject_Z shots)%Q)
          (keys (qc_dict s)) (ydata call).
Proof.
  intros Hc0 Hr.
  destruct (fit_request_ok _ _ _ _ _ Hr) as [c0' [ds [Hc0' [Hds ->]]]].
  rewrite Hc0 in Hc0'. injection Hc0' as <-.
  cbn [ydata make_call]. apply extract_loop_ok in Hds. clear Hr.
  induction Hds as [|key [p sg] ks ds Hstep _ IH]; cbn [map fst];
    [apply Forall2_nil | apply Forall2_cons; [|exact IH]].
  destruct (extract_step_ok _ _ _ _ _ _ Hstep)
    as [c [k [v [Hg [Hk [Hv [_ [Hp _]]]]]]]].
  exists c, k, v. repeat split; try assumption.
  unfold excited_key, Py.index. now rewrite Hk.
Qed.

(** C6 (as amended). Every invocation of the curve fitter receives the
    model function of the experiment, the x values and the y values as
    two ordered sequences with one entry per step (the x values of the
    cell and, step by step, the probabilities of the data loop), and
    lower and upper bounds on the parameters; an explicit initial guess
    [p0] is passed by the T2* cell only. *)
Theorem fit_call_arguments e backend s r shots call :
  construct e backend = inr s ->
  fit_request e s r shots = inr call ->
  f call = fit_fun_of e
  /\ xdata call = xvals s
  /\ List.length (xdata call) = steps e
  /\ List.length (ydata call) = steps e
  /\ bounds call = bounds_of e
  /\ List.length (fst (bounds call)) = List.length (snd (bounds call))
  /\ (p0 call <> None <-> e = T2star)
  /\ p0 call = p0_of e
  /\ keys (qc_dict s) = map step_name (seq 0 (steps e))
  /\ exists c0,
       get_counts r "step_0" = inr c0
       /\ Forall2 (fun key y =>
                     exists c k v,
                       get_counts r key = inr c
                       /\ excited_key c0 = inr k
                       /\ get c k = Some v
                       /\ y = (inject_Z v / inject_Z shots)%Q)
                  (keys (qc_dict s)) (ydata call).
Proof.
  intros Hc Hr.
  destruct (fit_request_ok _ _ _ _ _ Hr) as [c0 [ds [Hc0 [Hds Hcall]]]].
  pose proof (request_ydata e s r shots call c0 Hc0 Hr) as Hy.
  rewrite Hcall in *.
  cbn [f xdata ydata bounds p0 make_call] in *.
  split; [reflexivity|]. split; [reflexivity|].
  split; [now apply (length_xvals e backend)|].
  split.
  { rewrite length_map, (extract_loop_length _ _ _ _ _ Hds).
    destruct (construct_ok _ _ _ Hc) as [_ [_ [_ [_ ->]]]].
    apply length_keys_build_qc_dict. }
  split; [reflexivity|]. split; [now destruct e|].
  split.
  { split.
    - destruct e; simpl; intros H; try reflexivity; now elim H.
    - intros ->. discriminate. }
  split; [reflexivity|]. split.
  { destruct (construct_ok _ _ _ Hc) as [_ [_ [_ [_ ->]]]].
    apply keys_build_qc_dict. }
  exists c0. split; assumption.
Qed.

Lemma fit_call_arguments_witness :
  exists call,
    fit_request T1 setup_T1 result_T1 shots = inr call
    /\ f call = exp_fit_fun
    /\ xdata call = xvals setup_T1
    /\ List.length (xdata call) = 10
    /\ List.length (ydata call) = 10
    /\ bounds call = bounds_of T1
    /\ List.length (fst (bounds call)) = List.length (snd (bounds call))
    /\ (p0 call <> None <-> T1 = T2star)
    /\ p0 call = None
    /\ keys (qc_dict setup_T1) = map step_name (seq 0 10)
    /\ exists c0,
         get_counts result_T1 "step_0" = inr c0
         /\ Forall2 (fun key y =>
                       exists c k v,
                         get_counts result_T1 key = inr c
                         /\ excited_key c0 = inr k
                         /\ get c k = Some v
                         /\ y = (inject_Z v / inject_Z shots)%Q)
                    (keys (qc_dict setup_T1)) (ydata call).
Proof.
  eexists. split; [reflexivity|].
  apply (fit_call_arguments T1 backend_ns setup_T1 result_T1 shots);
    reflexivity.
Defined.

(** C6 (as stated, refuted). The T1 cell reaches the fitter without an
    initial parameter guess. *)
Lemma T1_call_without_guess :
  exists call,
    fit_request T1 setup_T1 result_T1 shots = inr call /\ p0 call = None.
Proof. eexists. split; reflexivity. Qed.

(** Entry [i] of [np.sqrt(np.diag(fcov))] is the square root of entry
    [(i, i)] of the covariance matrix. *)
Lemma std_errors_nth pcov i :
  i < Nat.min (List.length pcov) (List.length (hd [] pcov)) ->
  nth_error (std_errors pcov) i = Some (sqrt (nth i (nth i pcov []) 0%R)).
Proof.
  intros Hi. unfold std_errors, diag.
  rewrite !nth_error_map, nth_error_seq.
  destruct (Nat.ltb_spec i (Nat.min (List.length pcov)
                                    (List.length (hd [] pcov)))); [|lia].
  reflexivity.
Qed.

(** *** The cell around the fitter *)

Section WithFitter.

Variable curve_fit : fit_call -> Py.result (list R * list (list R)).

Lemma arrange_request_fail e s r shots ns x :
  fit_request e s r shots = inl x ->
  raised (arrange curve_fit e s r shots ns) = Some x
  /\ shown (arrange curve_fit e s r shots ns) = []
  /\ fit (ns_out (arrange curve_fit e s r shots ns)) = fit ns
  /\ ferr (ns_out (arrange curve_fit e s r shots ns)) = ferr ns.
Proof.
  intros Hr. unfold arrange.
  destruct (fit_request_fail _ _ _ _ _ Hr) as [->|[c0 [-> ->]]];
    repeat split.
Qed.

Lemma arrange_fit_ok e s r shots ns call popt pcov :
  fit_request e s r shots = inr call ->
  curve_fit call = inr (popt, pcov) ->
  arrange curve_fit e s r shots ns
  = let ns2 := bind_fit (bind_punit ns (punit_after (unit s) (punit ns)))
                        e popt pcov in
    match punit ns2 with
    | None => {| ns_out := ns2; shown := [];
                 raised := Some (Py.NameError "punit") |}
    | Some pu =>
        report (report_lines e) popt (std_errors pcov) ns2
          [Plot {| p_xvals := xdata call; p_data := ydata call;
                   p_sigma := p_sigma_of e s r shots;
                   p_fit := popt; p_fun := fit_fun_of e; p_punit := pu;
                   p_name := plot_name e; p_qubit := qubit e |}]
    end.
Proof.
  intros Hr Hfit.
  destruct (fit_request_ok _ _ _ _ _ Hr) as [c0 [ds [Hc0 [Hds ->]]]].
  unfold arrange, p_sigma_of. rewrite Hc0, Hds, Hfit. reflexivity.
Qed.

(** C7. When the fit fails, the exception of the fitter is the
    exception of the cell: the cell does not catch it, shows neither
    plot nor printed parameters, and binds neither a fit result nor
    standard errors. *)
Theorem fit_failure_propagates e s r shots ns call x :
  fit_request e s r shots = inr call ->
  curve_fit call = inl x ->
  raised (arrange curve_fit e s r shots ns) = Some x
  /\ shown (arrange curve_fit e s r shots ns) = []
  /\ fit (ns_out (arrange curve_fit e s r shots ns)) = fit ns
  /\ fcov (ns_out (arrange curve_fit e s r shots ns)) = fcov ns
  /\ ferr (ns_out (arrange curve_fit e s r shots ns)) = ferr ns.
Proof.
  intros Hr Hfit.
  destruct (fit_request_ok _ _ _ _ _ Hr) as [c0 [ds [Hc0 [Hds ->]]]].
  unfold arrange. rewrite Hc0, Hds, Hfit. repeat split.
Qed.

(** *** The binding of [punit] *)

Lemma report_ns_out lines : forall popt errs ns done,
  ns_out (report lines popt errs ns done) = ns.
Proof.
  induction lines as [|[[[l i] kv] ke] lines IH]; intros; cbn [report].
  - reflexivity.
  - unfold Py.bind.
    destruct (Py.index popt i); [reflexivity|].
    destruct (Py.index errs i); [reflexivity|]. apply IH.
Qed.

Lemma arrange_punit e s r shots ns :
  punit (ns_out (arrange curve_fit e s r shots ns)) = punit ns
  \/ punit (ns_out (arrange curve_fit e s r shots ns))
     = punit_after (unit s) (punit ns).
Proof.
  unfold arrange.
  destruct (get_counts r "step_0") as [x|c0]; [now left|]. right.
  destruct (extract_loop r (keys c0) shots (keys (qc_dict s))) as [x|ds];
    [reflexivity|].
  destruct (curve_fit _) as [x|[popt pcov]]; [reflexivity|].
  cbn [punit bind_fit bind_punit].
  destruct (punit_after (unit s) (punit ns)) as [pu|] eqn:E.
  - rewrite report_ns_out. reflexivity.
  - reflexivity.
Qed.

(** Without ['ns'] in the unit and without a binding of [punit], an
    arrange cell always raises, shows nothing and leaves [punit]
    unbound. *)
Lemma arrange_unbound e s r shots ns :
  Py.find (unit s) "ns" = (-1)%Z -> punit ns = None ->
  raised (arrange curve_fit e s r shots ns) <> None
  /\ shown (arrange curve_fit e s r shots ns) = []
  /\ punit (ns_out (arrange curve_fit e s r shots ns)) = None.
Proof.
  intros Hu Hp.
  assert (Hafter : punit_after (unit s) (punit ns) = None).
  { destruct (plot_factor_cases (unit s)) as [[_ [_ H]]|[H _]];
      [now rewrite H | lia]. }
  split; [|split].
  - unfold arrange.
    destruct (get_counts r "step_0") as [x|c0]; [discriminate|].
    destruct (extract_loop r (keys c0) shots (keys (qc_dict s))) as [x|ds];
      [discriminate|].
    destruct (curve_fit _) as [x|[popt pcov]]; [discriminate|].
    cbn [punit bind_fit bind_punit]. rewrite Hafter. discriminate.
  - unfold arrange.
    destruct (get_counts r "step_0") as [x|c0]; [reflexivity|].
    destruct (extract_loop r (keys c0) shots (keys (qc_dict s))) as [x|ds];
      [reflexivity|].
    destruct (curve_fit _) as [x|[popt pcov]]; [reflexivity|].
    cbn [punit bind_fit bind_punit]. rewrite Hafter. reflexivity.
  - destruct (arrange_punit e s r shots ns) as [->| ->]; congruence.
Qed.

(** A session on a backend none of whose units contains ['ns']. *)
Lemma run_cells_unbound backend shots runs : forall ns,
  Forall (fun p => Py.find (gateTime_unit p) "ns" = (-1)%Z) backend ->
  punit ns = None ->
  Forall (fun o => raised o <> None /\ shown o = []
                   /\ punit (ns_out o) = None)
         (run_cells
            (map (fun er => run_experiment curve_fit (fst er) backend
                              (snd er) shots) runs) ns).
Proof.
  induction runs as [|[e r] runs IH]; intros ns Hb Hp; cbn [map run_cells].
  - constructor.
  - assert (Ho : raised (run_experiment curve_fit e backend r shots ns) <> None
                 /\ shown (run_experiment curve_fit e backend r shots ns) = []
                 /\ punit (ns_out (run_experiment curve_fit e backend r shots ns))
                    = None).
    { cbn [fst snd]. unfold run_experiment.
      destruct (construct e backend) as [x|s] eqn:Hc.
      - cbn [raised shown ns_out]. repeat split; [discriminate | assumption].
      - apply arrange_unbound; [|assumption].
        destruct (construct_ok _ _ _ Hc) as [params [Hn [-> _]]].
        apply nth_error_In in Hn.
        rewrite Forall_forall in Hb. now apply Hb. }
    constructor; [exact Ho|]. apply IH; [assumption|]. apply Ho.
Qed.

(** With the unit lacking ['ns'] and [punit] unbound, a cell that gets
    as far as the plotting call raises [NameError] there. *)
Lemma arrange_name_error e s r shots ns call popt pcov :
  Py.find (unit s) "ns" = (-1)%Z ->
  punit ns = None ->
  fit_request e s r shots = inr call ->
  curve_fit call = inr (popt, pcov) ->
  raised (arrange curve_fit e s r shots ns) = Some (Py.NameError "punit").
Proof.
  intros Hu Hp Hr Hfit.
  rewrite (arrange_fit_ok e s r shots ns call popt pcov Hr Hfit).
  cbn [punit bind_fit bind_punit].
  destruct (plot_factor_cases (unit s)) as [[_ [_ H]]|[H _]]; [|lia].
  rewrite H, Hp. reflexivity.
Qed.

(** The outcomes of a session on a backend none of whose units contains
    ['ns'], run by run. *)
Lemma run_cells_by_run backend shots runs : forall ns,
  Forall (fun p => Py.find (gateTime_unit p) "ns" = (-1)%Z) backend ->
  punit ns = None ->
  Forall2 (fun er o =>
             raised o <> None /\ shown o = [] /\ punit (ns_out o) = None
             /\ forall s call popt pcov,
                  construct (fst er) backend = inr s ->
                  fit_request (fst er) s (snd er) shots = inr call ->
                  curve_fit call = inr (popt, pcov) ->
                  raised o = Some (Py.NameError "punit"))
          runs
          (run_cells
             (map (fun er => run_experiment curve_fit (fst er) backend
                               (snd er) shots) runs) ns).
Proof.
  induction runs as [|[e r] runs IH]; intros ns Hb Hp; cbn [map run_cells].
  - apply Forall2_nil.
  - pose proof (run_cells_unbound backend shots [(e, r)] ns Hb Hp) as H1.
    cbn [map run_cells] in H1. inversion H1 as [|o l [Hr [Hs Hpu]] _]; subst.
    apply Forall2_cons.
    + split; [exact Hr|]. split; [exact Hs|]. split; [exact Hpu|].
      cbn [fst snd]. intros s call popt pcov Hc Hreq Hfit.
      unfold run_experiment. rewrite Hc.
      apply (arrange_name_error e s r shots ns call popt pcov);
        try assumption.
      destruct (construct_ok _ _ _ Hc) as [params [Hn [-> _]]].
      apply nth_error_In in Hn. rewrite Forall_forall in Hb. now apply Hb.
    + apply IH; assumption.
Qed.

(** C8 (as amended). In every arrange cell [punit] is assigned only when
    the unit string of the backend contains ['ns']; when it does not,
    [plot_factor] stays 1 and the x values are left unscaled.  The
    plotting call then fails on the undefined name only where [punit]
    is not bound already: in a session started on a fresh namespace on
    a backend none of whose unit strings contains ['ns'], every run
    gives one outcome that raises, shows nothing and leaves [punit]
    unbound, the exception being [NameError] on [punit] for every run
    that gets as far as the plotting call; and so does any cell that
    finds [punit] unbound. *)
Theorem punit_only_with_ns :
  (forall e s r shots ns,
      Py.find (unit s) "ns" = (-1)%Z ->
      punit (ns_out (arrange curve_fit e s r shots ns)) = punit ns)
  /\ (forall backend shots runs,
         Forall (fun p => Py.find (gateTime_unit p) "ns" = (-1)%Z) backend ->
         Forall (fun o => raised o <> None /\ shown o = []
                          /\ punit (ns_out o) = None)
                (run_session curve_fit backend shots runs))
  /\ (forall e s r shots ns call popt pcov,
         Py.find (unit s) "ns" = (-1)%Z ->
         punit ns = None ->
         fit_request e s r shots = inr call ->
         curve_fit call = inr (popt, pcov) ->
         raised (arrange curve_fit e s r shots ns)
         = Some (Py.NameError "punit"))
  /\ (forall s,
         Py.find (unit s) "ns" = (-1)%Z ->
         plot_factor (unit s) = 1%Q
         /\ xvals s
            = map (fun v => (s_time_per_step s * v / 1)%Q)
                  (linspace 0%Q (Qnat (List.length (keys (qc_dict s))))
                            (List.length (keys (qc_dict s)))))
  /\ (forall backend shots runs,
         Forall (fun p => Py.find (gateTime_unit p) "ns" = (-1)%Z) backend ->
         Forall2 (fun er o =>
                    raised o <> None /\ shown o = []
                    /\ punit (ns_out o) = None
                    /\ forall s call popt pcov,
                         construct (fst er) backend = inr s ->
                         fit_request (fst er) s (snd er) shots = inr call ->
                         curve_fit call = inr (popt, pcov) ->
                         raised o = Some (Py.NameError "punit"))
                 runs (run_session curve_fit backend shots runs)).
Proof.
  split; [|split; [|split; [|split]]].
  - intros e s r shots ns Hu.
    destruct (arrange_punit e s r shots ns) as [->| ->]; [reflexivity|].
    destruct (plot_factor_cases (unit s)) as [[_ [_ H]]|[H _]];
      [apply H | lia].
  - intros backend shots runs Hb. unfold run_session.
    now apply run_cells_unbound.
  - apply arrange_name_error.
  - intros s Hu.
    destruct (plot_factor_cases (unit s)) as [[_ [H _]]|[H _]]; [|lia].
    split; [exact H|]. unfold xvals. now rewrite H.
  - intros backend shots runs Hb. unfold run_session.
    now apply run_cells_by_run.
Qed.

(** *** The fit result and its standard errors *)

(** A fit that returns is bound as it is, and [ferr] is computed from
    the covariance matrix the fitter returned. *)
Lemma fit_result_bound e s r shots ns call popt pcov :
  fit_request e s r shots = inr call ->
  curve_fit call = inr (popt, pcov) ->
  fit (ns_out (arrange curve_fit e s r shots ns)) e = Some popt
  /\ fcov (ns_out (arrange curve_fit e s r shots ns)) = Some pcov
  /\ ferr (ns_out (arrange curve_fit e s r shots ns))
     = Some (std_errors pcov).
Proof.
  intros Hr Hfit.
  rewrite (arrange_fit_ok e s r shots ns call popt pcov Hr Hfit).
  cbv zeta.
  destruct (punit (bind_fit _ e popt pcov));
    rewrite ?report_ns_out; cbn [ns_out fit fcov ferr bind_fit];
    (repeat split); now destruct e.
Qed.

(** *** The key of the excited state *)

Lemma keys_qc_dict_construct e backend s :
  construct e backend = inr s ->
  keys (qc_dict s) = map step_name (seq 0 (steps e)).
Proof.
  intros Hc. destruct (construct_ok _ _ _ Hc) as [_ [_ [_ [_ ->]]]].
  apply keys_build_qc_dict.
Qed.

(** C9. The data extraction takes the second key of the counts of
    ['step_0'] as the bitstring of the excited state and looks that
    key up in the counts of every step.  The cell fails with an
    [IndexError] when the counts of ['step_0'] have fewer than two
    keys and with a [KeyError] when the counts of some step lack the
    key.  The key depends on the order of the mapping: listing the
    same entries with the first two exchanged selects another key. *)
Theorem excited_key_selection e backend s r shots ns c0 :
  construct e backend = inr s ->
  get_counts r "step_0" = inr c0 ->
  (forall call,
      fit_request e s r shots = inr call ->
      exists k,
        excited_key c0 = inr k
        /\ Forall2 (fun key p =>
                      exists c v,
                        get_counts r key = inr c /\ get c k = Some v
                        /\ p = (inject_Z v / inject_Z shots)%Q)
                   (keys (qc_dict s)) (ydata call))
  /\ (List.length (keys c0) < 2 ->
      raised (arrange curve_fit e s r shots ns) = Some Py.IndexError)
  /\ (forall k,
         excited_key c0 = inr k ->
         shots <> 0%Z ->
         (forall key, In key (keys (qc_dict s)) ->
                      exists c, get_counts r key = inr c) ->
         (exists key c, In key (keys (qc_dict s))
                        /\ get_counts r key = inr c /\ get c k = None) ->
         raised (arrange curve_fit e s r shots ns) = Some (Py.KeyError k))
  /\ (forall k1 v1 k2 v2 rest,
         c0 = (k1, v1) :: (k2, v2) :: rest -> k1 <> k2 ->
         excited_key c0 = inr k2
         /\ excited_key ((k2, v2) :: (k1, v1) :: rest) = inr k1
         /\ forall k, get ((k2, v2) :: (k1, v1) :: rest) k = get c0 k).
Proof.
  intros Hc Hc0.
  pose proof (keys_qc_dict_construct e backend s Hc) as Hkeys.
  split; [|split; [|split]].
  - intros call Hr.
    destruct (fit_request_ok _ _ _ _ _ Hr) as [c0' [ds [Hc0' [Hds ->]]]].
    rewrite Hc0 in Hc0'. injection Hc0' as <-.
    cbn [ydata make_call].
    apply extract_loop_ok in Hds.
    assert (Hne : keys (qc_dict s) <> []).
    { rewrite Hkeys. destruct e; discriminate. }
    destruct Hds as [|key [p sg] ks ds' Hstep Hrest]; [congruence|].
    destruct (extract_step_ok _ _ _ _ _ _ Hstep)
      as [c [k [v [Hg [Hk [Hv [_ [Hp _]]]]]]]].
    exists k. split.
    { unfold excited_key, Py.index. now rewrite Hk. }
    cbn [map fst]. constructor.
    { exists c, v. auto. }
    clear - Hrest Hk.
    induction Hrest as [|key' [p' sg'] ks' ds'' Hstep' _ IH];
      cbn [map fst]; constructor; [|exact IH].
    destruct (extract_step_ok _ _ _ _ _ _ Hstep')
      as [c' [k' [v' [Hg' [Hk' [Hv' [_ [Hp' _]]]]]]]].
    rewrite Hk in Hk'. injection Hk' as <-.
    exists c', v'. auto.
  - intros Hlen. apply arrange_request_fail.
    unfold fit_request, Py.bind. rewrite Hc0, Hkeys.
    assert (Hs : exists n, steps e = S n) by (destruct e; eexists; reflexivity).
    destruct Hs as [n ->]. cbn [seq map extract_loop].
    change (step_name 0) with "step_0"%string.
    unfold extract_step at 1, Py.bind at 1. rewrite Hc0.
    unfold Py.bind at 1, Py.index.
    assert (Hnth : nth_error (keys c0) 1 = None)
      by (apply nth_error_None; lia).
    rewrite Hnth. reflexivity.
  - intros k Hk Hshots Hall [key [c [Hin [Hg Hmiss]]]].
    apply arrange_request_fail.
    unfold fit_request, Py.bind at 1. rewrite Hc0.
    rewrite (extract_loop_raises r (keys c0) shots (keys (qc_dict s))
               (Py.KeyError k)); [reflexivity| |].
    + exists key. split; [assumption|].
      unfold extract_step, Py.bind, getitem. rewrite Hg.
      unfold excited_key in Hk. rewrite Hk, Hmiss. reflexivity.
    + intros key' y Hin' Hy.
      destruct (Hall key' Hin') as [c' Hg'].
      unfold extract_step, Py.bind, getitem, normalize in Hy.
      unfold excited_key in Hk. rewrite Hg', Hk in Hy.
      destruct (get c' k) as [v|]; [|now injection Hy as <-].
      destruct (Z.eqb_spec shots 0); [contradiction | discriminate].
  - intros k1 v1 k2 v2 rest -> Hne. repeat split.
    intros k. cbn [get].
    destruct (String.eqb_spec k k2) as [E2|H2],
             (String.eqb_spec k k1) as [E1|H1]; congruence.
Qed.

End WithFitter.

Lemma fit_failure_propagates_witness :
  raised (arrange failing_fit T1 setup_T1 result_T1 shots fresh)
    = Some (Py.FitError "Optimal parameters not found")
  /\ shown (arrange failing_fit T1 setup_T1 result_T1 shots fresh) = []
  /\ fit (ns_out (arrange failing_fit T1 setup_T1 result_T1 shots fresh))
     = fit fresh
  /\ fcov (ns_out (arrange failing_fit T1 setup_T1 result_T1 shots fresh))
     = fcov fresh
  /\ ferr (ns_out (arrange failing_fit T1 setup_T1 result_T1 shots fresh))
     = ferr fresh.
Proof.
  apply (fit_failure_propagates failing_fit T1 setup_T1 result_T1 shots fresh
           (make_call T1 (xvals setup_T1) (map fst (repeat data_point 10))));
    reflexivity.
Defined.

Lemma punit_only_with_ns_witness :
  punit (ns_out (arrange constant_fit T1 setup_T1_us result_T1 shots fresh))
    = punit fresh
  /\ Forall (fun o => raised o <> None /\ shown o = []
                      /\ punit (ns_out o) = None)
            (run_session constant_fit backend_us shots
               [(T1, result_T1); (T2echo, MoreSamples.result_echo)])
  /\ raised (arrange constant_fit T1 setup_T1_us result_T1 shots fresh)
     = Some (Py.NameError "punit")
  /\ plot_factor (unit setup_T1_us) = 1%Q
  /\ Forall2 (fun er o =>
                raised o <> None /\ shown o = []
                /\ punit (ns_out o) = None
                /\ forall s call popt pcov,
                     construct (fst er) backend_us = inr s ->
                     fit_request (fst er) s (snd er) shots = inr call ->
                     constant_fit call = inr (popt, pcov) ->
                     raised o = Some (Py.NameError "punit"))
             [(T1, result_T1); (T2echo, MoreSamples.result_echo)]
             (run_session constant_fit backend_us shots
                [(T1, result_T1); (T2echo, MoreSamples.result_echo)]).
Proof.
  pose proof (punit_only_with_ns constant_fit) as [H1 [H2 [H3 [H4 H5]]]].
  assert (Hb : Forall (fun p => Py.find (gateTime_unit p) "ns" = (-1)%Z)
                      backend_us).
  { unfold backend_us. simpl.
    repeat (apply Forall_cons; [reflexivity|]). apply Forall_nil. }
  split; [|split; [|split; [|split]]].
  - apply H1. reflexivity.
  - apply H2. exact Hb.
  - apply (H3 T1 setup_T1_us result_T1 shots fresh
             (make_call T1 (xvals setup_T1_us)
                (map fst (repeat data_point 10)))
             [0.5; 50; 0.25]%R
             [[0.01; 0; 0]; [0; 4; 0]; [0; 0; 0.01]]%R); reflexivity.
  - apply (H4 setup_T1_us). reflexivity.
  - apply H5. exact Hb.
Defined.

(** C8 (as stated, refuted). A cell whose unit string lacks ['ns'] does
    not fail when an earlier cell of the session has bound [punit]: after
    the T1 cell on a backend reporting nanoseconds, the T1 cell on a
    backend reporting microseconds completes without exception. *)
Lemma stale_punit_completes :
  Py.find (unit setup_T1_us) "ns" = (-1)%Z
  /\ construct T1 backend_us = inr setup_T1_us
  /\ map raised
       (run_cells
          [run_experiment constant_fit T1 backend_ns result_T1 shots;
           run_experiment constant_fit T1 backend_us result_T1 shots]
          fresh)
     = [None; None].
Proof. repeat split. Qed.

Lemma excited_key_selection_witness :
  (exists k, excited_key counts_3 = inr k
             /\ Forall2 (fun key p =>
                           exists c v,
                             get_counts result_T1 key = inr c
                             /\ get c k = Some v
                             /\ p = (inject_Z v / inject_Z shots)%Q)
                        (keys (qc_dict setup_T1))
                        (map fst (repeat data_point 10)))
  /\ raised (arrange failing_fit T1 setup_T1 result_one_key shots fresh)
     = Some Py.IndexError
  /\ raised (arrange failing_fit T1 setup_T1 result_missing shots fresh)
     = Some (Py.KeyError "01000")
  /\ (excited_key counts_3 = inr "01000"%string
      /\ excited_key counts_3_swapped = inr "00000"%string
      /\ forall k, get counts_3_swapped k = get counts_3 k).
Proof.
  split; [|split; [|split]].
  - apply (proj1 (excited_key_selection failing_fit T1 backend_ns setup_T1
                    result_T1 shots fresh counts_3 eq_refl eq_refl)
             (make_call T1 (xvals setup_T1)
                (map fst (repeat data_point 10)))).
    reflexivity.
  - apply (proj1 (proj2 (excited_key_selection failing_fit T1 backend_ns
                           setup_T1 result_one_key shots fresh counts_ground
                           eq_refl eq_refl))).
    simpl. lia.
  - apply (proj1 (proj2 (proj2 (excited_key_selection failing_fit T1
                                  backend_ns setup_T1 result_missing shots
                                  fresh counts_3 eq_refl eq_refl)))
             "01000"%string).
    + reflexivity.
    + discriminate.
    + intros key Hin.
      rewrite (keys_qc_dict_construct T1 backend_ns setup_T1 eq_refl) in Hin.
      simpl in Hin.
      repeat (destruct Hin as [<-|Hin]; [eexists; reflexivity|]).
      contradiction.
    + exists "step_4"%string, counts_ground.
      split; [|split; reflexivity].
      rewrite (keys_qc_dict_construct T1 backend_ns setup_T1 eq_refl).
      simpl. tauto.
  - apply (proj2 (proj2 (proj2 (excited_key_selection failing_fit T1
                                  backend_ns setup_T1 result_T1 shots fresh
                                  counts_3 eq_refl eq_refl)))
             "00000"%string 256%Z "01000"%string 768%Z []);
      [reflexivity | discriminate].
Defined.

End ArrangeFacts.

(** ** More on the construction cells *)

Module ConstructMore.

Import PyDict PyDictFacts Circuit Coherence Shape Samples.
Import ConstructFacts XvalsFacts.

Lemma pad_QId_eq circ N q : pad_QId circ N q = circ ++ padding N q.
Proof.
  revert circ. induction N as [|N IH]; intros circ; cbn [pad_QId padding].
  - now rewrite app_nil_r.
  - rewrite IH, <- app_assoc. reflexivity.
Qed.

Lemma padding_add N M q : padding (N + M) q = padding N q ++ padding M q.
Proof.
  induction N as [|N IH]; cbn [padding Nat.add app]; [reflexivity|].
  now rewrite IH.
Qed.

Lemma length_padding N q : List.length (padding N q) = 2 * N.
Proof. induction N as [|N IH]; cbn [padding List.length]; lia. Qed.

(** [pad_QId] leaves the gates it is given in place and appends exactly
    [N] barrier-identity pairs on the qubit; padding twice is padding
    once with the sum. *)
Theorem pad_QId_appends circ N M q :
  pad_QId circ N q = circ ++ padding N q
  /\ List.length (pad_QId circ N q) = List.length circ + 2 * N
  /\ pad_QId (pad_QId circ N q) M q = pad_QId circ (N + M) q.
Proof.
  split; [apply pad_QId_eq|]. split.
  - now rewrite pad_QId_eq, length_app, length_padding.
  - now rewrite !pad_QId_eq, padding_add, app_assoc.
Qed.

Lemma padding_qubit N q g : In g (padding N q) -> gate_qubit g = q.
Proof.
  induction N as [|N IH]; cbn [padding]; [contradiction|].
  intros [<-|[<-|Hin]]; auto.
Qed.

Lemma padding_no_measure N q : filter is_measure (padding N q) = [].
Proof. induction N as [|N IH]; cbn [padding filter is_measure]; auto. Qed.

Lemma echo_train_eq circ n pad q :
  exists tail,
    echo_train circ n pad q = circ ++ tail
    /\ (forall g, In g tail -> gate_qubit g = q)
    /\ filter is_measure tail = [].
Proof.
  revert circ. induction n as [|n IH]; intros circ; cbn [echo_train].
  - exists []. rewrite app_nil_r. repeat split. intros g [].
  - destruct (IH (pad_QId circ pad q ++ [X q])) as [t [Ht [Hq Hm]]].
    exists (padding pad q ++ [X q] ++ t). split; [|split].
    + rewrite Ht, pad_QId_eq, <- !app_assoc. reflexivity.
    + intros g Hin. apply in_app_or in Hin. destruct Hin as [Hin|Hin].
      * now apply (padding_qubit pad).
      * apply in_app_or in Hin. destruct Hin as [[<-|[]]|Hin]; auto.
    + rewrite !filter_app, padding_no_measure, Hm. reflexivity.
Qed.

(** Every circuit of every experiment acts on the qubit of the experiment
    only, and measures it once, as its last gate, after a barrier. *)
Theorem step_circuit_shape e ii :
  (forall g, In g (step_circuit e ii) -> gate_qubit g = qubit e)
  /\ exists body,
       step_circuit e ii
       = body ++ [Barrier (qubit e); Measure (qubit e) (qubit e)]
       /\ filter is_measure body = [].
Proof.
  assert (Hshape : exists body,
             step_circuit e ii
             = body ++ [Barrier (qubit e); Measure (qubit e) (qubit e)]
             /\ filter is_measure body = []
             /\ forall g, In g body -> gate_qubit g = qubit e).
  { destruct e; unfold step_circuit; rewrite ?pad_QId_eq.
    - eexists. split; [reflexivity|]. split.
      + rewrite filter_app, padding_no_measure. reflexivity.
      + intros g Hin. apply in_app_or in Hin.
        destruct Hin as [[<-|[]]|Hin]; [reflexivity|].
        now apply (padding_qubit (gates_per_step T1 * ii)).
    - exists (([H (qubit T2star)] ++ padding (gates_per_step T2star * ii)
                                       (qubit T2star))
              ++ [U1 (2 * PI * INR num_osc * INR ii
                      / INR (steps T2star - 1))%R (qubit T2star);
                  H (qubit T2star)]).
      split; [now rewrite <- !app_assoc|]. split.
      + rewrite !filter_app, padding_no_measure. reflexivity.
      + intros g Hin. apply in_app_or in Hin. destruct Hin as [Hin|Hin].
        * apply in_app_or in Hin. destruct Hin as [[<-|[]]|Hin]; [reflexivity|].
          now apply (padding_qubit (gates_per_step T2star * ii)).
        * destruct Hin as [<-|[<-|[]]]; reflexivity.
    - exists (((([H (qubit T2echo)] ++ padding (gates_per_step T2echo * ii)
                                         (qubit T2echo))
                ++ [X (qubit T2echo)])
               ++ padding (gates_per_step T2echo * ii) (qubit T2echo))
              ++ [H (qubit T2echo)]).
      split; [now rewrite <- !app_assoc|]. split.
      + rewrite !filter_app, !padding_no_measure. reflexivity.
      + intros g Hin.
        repeat (apply in_app_or in Hin; destruct Hin as [Hin|Hin]);
          try (now apply (padding_qubit (gates_per_step T2echo * ii)));
          destruct Hin as [<-|[]]; reflexivity.
    - destruct (echo_train_eq [H (qubit CPMG)] num_echo
                  (gates_per_step CPMG * ii) (qubit CPMG)) as [t [Ht [Hq Hm]]].
      rewrite Ht.
      exists ((([H (qubit CPMG)] ++ t)
               ++ padding (gates_per_step CPMG * ii) (qubit CPMG))
              ++ [H (qubit CPMG)]).
      split; [now rewrite <- !app_assoc|]. split.
      + rewrite !filter_app, padding_no_measure, Hm. reflexivity.
      + intros g Hin.
        repeat (apply in_app_or in Hin; destruct Hin as [Hin|Hin]);
          try (now apply (padding_qubit (gates_per_step CPMG * ii)));
          try (now apply Hq);
          destruct Hin as [<-|[]]; reflexivity. }
  destruct Hshape as [body [Heq [Hm Hq]]]. split.
  - intros g Hin. rewrite Heq in Hin. apply in_app_or in Hin.
    destruct Hin as [Hin|[<-|[<-|[]]]]; auto.
  - exists body. now split.
Qed.

(** The construction loop leaves one circuit per step under the names
    ['step_0'], ['step_1'], ... in this order; a step name looks up the
    circuit of its step, and a name beyond the last step is absent. *)
Theorem qc_dict_entries e backend s ii :
  construct e backend = inr s ->
  keys (qc_dict s) = map step_name (seq 0 (steps e))
  /\ NoDup (keys (qc_dict s))
  /\ (ii < steps e -> get (qc_dict s) (step_name ii) = Some (step_circuit e ii))
  /\ (steps e <= ii -> get (qc_dict s) (step_name ii) = None).
Proof.
  intros Hc. destruct (construct_ok _ _ _ Hc) as [_ [_ [_ [_ ->]]]].
  assert (Hinj : forall l, NoDup l -> NoDup (map step_name l)).
  { induction 1 as [|x l Hx Hl IH]; cbn [map]; constructor; [|exact IH].
    rewrite in_map_iff. intros [y [Hy Hin]].
    apply step_name_inj in Hy. now subst. }
  split; [apply keys_build_qc_dict|]. split; [|split].
  - rewrite keys_build_qc_dict. apply Hinj, seq_NoDup.
  - apply get_build_qc_dict.
  - intros Hge. apply get_None_notin.
    rewrite keys_build_qc_dict, in_map_iff. intros [m [Hm Hin]].
    apply step_name_inj in Hm. apply in_seq in Hin. lia.
Qed.

Lemma qc_dict_entries_witness :
  keys (qc_dict setup_T1) = map step_name (seq 0 10)
  /\ NoDup (keys (qc_dict setup_T1))
  /\ (3 < 10 -> get (qc_dict setup_T1) (step_name 3) = Some (step_circuit T1 3))
  /\ (10 <= 3 -> get (qc_dict setup_T1) (step_name 3) = None).
Proof.
  apply (qc_dict_entries T1 backend_ns setup_T1 3). reflexivity.
Defined.

(** The padded identity gates of step [ii] last [ii] times
    [time_per_step], less, in the CPMG cell, [ii] times the [num_echo] X
    gates that its [time_per_step] counts as well. *)
Theorem padded_delay e p ii :
  (delay e p ii
   == Qnat ii * (time_per_step e p
                 - (match e with
                    | CPMG => Qnat num_echo * tot_length p
                    | _ => 0
                    end)))%Q.
Proof.
  destruct e.
  1-3: rewrite delay_time_per_step by discriminate; ring.
  pose proof (delay_CPMG p ii) as H.
  setoid_replace (delay CPMG p ii)
    with (delay CPMG p ii + Qnat ii * Qnat num_echo * tot_length p
          - Qnat ii * Qnat num_echo * tot_length p)%Q by ring.
  rewrite H. ring.
Qed.

End ConstructMore.

(** ** More on the x values and the data loop *)

Module DataMore.

Import PyDict PyDictFacts Circuit Coherence Samples.
Import ConstructFacts XvalsFacts ExtractFacts.

Lemma Qnat_sub a b : (a <= b)%nat -> (Qnat (b - a) == Qnat b - Qnat a)%Q.
Proof.
  intros Hle. unfold Qnat. rewrite Nat2Z.inj_sub by assumption.
  unfold Zminus. rewrite inject_Z_plus, inject_Z_opp. reflexivity.
Qed.

Lemma plot_factor_pos u : (0 < plot_factor u)%Q.
Proof.
  destruct (plot_factor_cases u) as [[_ [-> _]]|[_ [-> _]]]; reflexivity.
Qed.

(** After a construction cell the x values are one per step, start at 0
    and are equally spaced by [time_per_step * steps / (steps - 1)] in
    the plot unit, so that they increase strictly when the gate times
    are positive. *)
Theorem xvals_spacing e backend s ii jj x y :
  construct e backend = inr s ->
  ii < jj < steps e ->
  nth_error (xvals s) ii = Some x ->
  nth_error (xvals s) jj = Some y ->
  List.length (xvals s) = steps e
  /\ (exists x0, nth_error (xvals s) 0 = Some x0 /\ (x0 == 0)%Q)
  /\ (y - x == Qnat (jj - ii)
               * (s_time_per_step s * Qnat (steps e) / Qnat (steps e - 1)
                  / plot_factor (unit s)))%Q
  /\ ((0 < s_time_per_step s)%Q -> (x < y)%Q).
Proof.
  intros Hc [Hij Hj] Hx Hy.
  assert (Hs : 2 <= steps e) by (destruct e; simpl; lia).
  pose proof (plot_factor_nonzero (unit s)) as Hpf.
  assert (Hn1 : ~ (Qnat (steps e - 1) == 0)%Q) by (apply Qnat_nonzero; lia).
  destruct (xvals_nth e backend s ii Hc ltac:(lia)) as [x' [Hx' Hxe]].
  destruct (xvals_nth e backend s jj Hc Hj) as [y' [Hy' Hye]].
  rewrite Hx in Hx'. injection Hx' as <-.
  rewrite Hy in Hy'. injection Hy' as <-.
  assert (Hdiff : (y - x == Qnat (jj - ii)
                            * (s_time_per_step s * Qnat (steps e)
                               / Qnat (steps e - 1) / plot_factor (unit s)))%Q).
  { rewrite Hxe, Hye, (Qnat_sub ii jj) by lia. field. split; assumption. }
  split; [now apply (length_xvals e backend)|]. split; [|split].
  - destruct (xvals_nth e backend s 0 Hc ltac:(lia)) as [x0 [Hx0 Hx0e]].
    exists x0. split; [assumption|]. rewrite Hx0e.
    assert (H0 : (Qnat 0 == 0)%Q) by reflexivity.
    rewrite H0. field. split; assumption.
  - exact Hdiff.
  - intros Hpos.
    assert (Hgap : (0 < y - x)%Q).
    { rewrite Hdiff.
      apply Qmult_lt_0_compat; [apply Qnat_pos; lia|].
      unfold Qdiv. repeat apply Qmult_lt_0_compat.
      - assumption.
      - apply Qnat_pos; lia.
      - apply Qinv_lt_0_compat, Qnat_pos; lia.
      - apply Qinv_lt_0_compat, plot_factor_pos. }
    apply (Qplus_lt_l _ _ (- x)).
    setoid_replace (x + - x)%Q with 0%Q by ring. exact Hgap.
Qed.

Lemma xvals_spacing_witness :
  exists x y,
    nth_error (xvals setup_T1) 1 = Some x
    /\ nth_error (xvals setup_T1) 3 = Some y
    /\ List.length (xvals setup_T1) = steps T1
    /\ (exists x0, nth_error (xvals setup_T1) 0 = Some x0 /\ (x0 == 0)%Q)
    /\ (y - x == Qnat (3 - 1)
                 * (s_time_per_step setup_T1 * Qnat (steps T1)
                    / Qnat (steps T1 - 1) / plot_factor (unit setup_T1)))%Q
    /\ ((0 < s_time_per_step setup_T1)%Q -> (x < y)%Q).
Proof.
  eexists. eexists. split; [reflexivity|]. split; [reflexivity|].
  apply (xvals_spacing T1 backend_ns setup_T1 1 3).
  - reflexivity.
  - simpl. lia.
  - reflexivity.
  - reflexivity.
Defined.

(** The data loop stops at the first step that raises, with the exception
    of that step, whatever the counts of the later steps are. *)
Theorem first_failing_step r keys_0_1 shots ks1 key ks2 ds x :
  extract_loop r keys_0_1 shots ks1 = inr ds ->
  extract_step r keys_0_1 shots key = inl x ->
  extract_loop r keys_0_1 shots (ks1 ++ key :: ks2) = inl x.
Proof.
  revert ds. induction ks1 as [|k ks1 IH]; intros ds Hok Hfail.
  - rewrite app_nil_l. cbn [extract_loop]. unfold Py.bind. now rewrite Hfail.
  - rewrite <- app_comm_cons. cbn [extract_loop] in *. unfold Py.bind in *.
    destruct (extract_step r keys_0_1 shots k) as [y|d]; [discriminate|].
    destruct (extract_loop r keys_0_1 shots ks1) as [y|ds'] eqn:E;
      [discriminate|].
    now rewrite (IH ds' eq_refl Hfail).
Qed.

Lemma first_failing_step_witness :
  extract_loop result_missing (keys counts_3) shots
    (["step_0"; "step_1"] ++ "step_4" :: ["step_5"])
  = inl (Py.KeyError "01000").
Proof.
  apply (first_failing_step result_missing (keys counts_3) shots
           ["step_0"; "step_1"] "step_4" ["step_5"]
           [data_point; data_point]); reflexivity.
Defined.

Lemma nth_error_keys_get {V} (d : dict V) i k :
  nth_error (keys d) i = Some k -> exists v, get d k = Some v.
Proof.
  intros Hn. apply nth_error_In in Hn.
  destruct (get d k) as [v|] eqn:E; [now exists v|].
  apply get_None_notin in E. contradiction.
Qed.

(** With [shots = 0] an arrange cell that finds two keys in the counts of
    ['step_0'] raises [ZeroDivisionError] at the first step and shows
    nothing, whatever the fitter is. *)
Theorem zero_shots_raises
    (curve_fit : fit_call -> Py.result (list R * list (list R)))
    e backend s r ns c0 :
  construct e backend = inr s ->
  get_counts r "step_0" = inr c0 ->
  2 <= List.length (keys c0) ->
  raised (arrange curve_fit e s r 0 ns) = Some Py.ZeroDivisionError
  /\ shown (arrange curve_fit e s r 0 ns) = [].
Proof.
  intros Hc Hc0 Hlen.
  assert (Hreq : fit_request e s r 0 = inl Py.ZeroDivisionError).
  { unfold fit_request, Py.bind at 1. rewrite Hc0.
    destruct (construct_ok _ _ _ Hc) as [_ [_ [_ [_ ->]]]].
    rewrite keys_build_qc_dict.
    assert (Hs : exists m, steps e = S m) by (destruct e; eexists; reflexivity).
    destruct Hs as [m ->]. cbn [seq map extract_loop].
    change (step_name 0) with "step_0"%string.
    destruct (nth_error (keys c0) 1) as [k|] eqn:Hk;
      [|apply nth_error_None in Hk; lia].
    destruct (nth_error_keys_get c0 1 k Hk) as [v Hv].
    assert (Hstep : extract_step r (keys c0) 0 "step_0"
                    = inl Py.ZeroDivisionError).
    { unfold extract_step. rewrite Hc0. cbn [Py.bind].
      unfold Py.index. rewrite Hk. cbn [Py.bind Py.ret].
      unfold getitem. rewrite Hv. reflexivity. }
    unfold Py.bind at 1. now rewrite Hstep. }
  unfold arrange. rewrite Hc0.
  unfold fit_request, Py.bind at 1 in Hreq. rewrite Hc0 in Hreq.
  unfold Py.bind in Hreq.
  destruct (extract_loop r (keys c0) 0 (keys (qc_dict s))) as [x|ds];
    [|discriminate].
  injection Hreq as ->. split; reflexivity.
Qed.

Lemma zero_shots_raises_witness :
  raised (arrange constant_fit T1 setup_T1 result_T1 0 fresh)
    = Some Py.ZeroDivisionError
  /\ shown (arrange constant_fit T1 setup_T1 result_T1 0 fresh) = [].
Proof.
  apply (zero_shots_raises constant_fit T1 backend_ns setup_T1 result_T1
           fresh counts_3).
  - reflexivity.
  - reflexivity.
  - simpl. lia.
Defined.

(** The standard error of a probability in [[0,1]] lies between 0 and
    [1 / (2 * sqrt shots)], and it is 0 when the probability is 0 or 1. *)
Theorem sigma_bounds p shots :
  (0 < shots)%Z -> (0 <= p <= 1)%Q ->
  (0 <= sigma p shots <= 1 / (2 * sqrt (IZR shots)))%R
  /\ ((p == 0)%Q \/ (p == 1)%Q -> sigma p shots = 0%R).
Proof.
  intros Hs [Hp0 Hp1].
  assert (HS : (0 < sqrt (IZR shots))%R) by (apply sqrt_lt_R0; now apply IZR_lt).
  assert (Hq0 : (0 <= Q2R p)%R).
  { rewrite <- RMicromega.Q2R_0. now apply Qle_Rle. }
  assert (Hq1 : (Q2R p <= 1)%R).
  { rewrite <- RMicromega.Q2R_1. now apply Qle_Rle. }
  assert (Hval : Q2R (p * (1 - p)) = (Q2R p * (1 - Q2R p))%R).
  { now rewrite Q2R_mult, Q2R_minus, RMicromega.Q2R_1. }
  unfold sigma. rewrite Hval. split.
  - assert (Hroot : (0 <= sqrt (Q2R p * (1 - Q2R p)) <= 1 / 2)%R).
    { split; [apply sqrt_pos|].
      rewrite <- (sqrt_Rsqr (1 / 2)) by lra.
      apply sqrt_le_1_alt.
      pose proof (Rle_0_sqr (Q2R p - 1 / 2)) as Hsq.
      unfold Rsqr in *. lra. }
    split.
    + apply Rmult_le_pos; [tauto|]. left. now apply Rinv_0_lt_compat.
    + replace (1 / (2 * sqrt (IZR shots)))%R
        with ((1 / 2) / sqrt (IZR shots))%R by (field; lra).
      apply Rmult_le_compat_r; [left; now apply Rinv_0_lt_compat | tauto].
  - intros [He|He].
    + assert (Hz : Q2R p = 0%R).
      { rewrite (Qeq_eqR _ _ He). apply RMicromega.Q2R_0. }
      rewrite Hz, Rmult_0_l, sqrt_0. unfold Rdiv. apply Rmult_0_l.
    + assert (Hz : Q2R p = 1%R).
      { rewrite (Qeq_eqR _ _ He). apply RMicromega.Q2R_1. }
      rewrite Hz. replace (1 * (1 - 1))%R with 0%R by lra.
      rewrite sqrt_0. unfold Rdiv. apply Rmult_0_l.
Qed.

Lemma sigma_bounds_witness :
  (0 <= sigma (768 # 1024) 1024 <= 1 / (2 * sqrt (IZR 1024)))%R
  /\ ((768 # 1024 == 0)%Q \/ (768 # 1024 == 1)%Q
      -> sigma (768 # 1024) 1024 = 0%R).
Proof.
  apply (sigma_bounds (768 # 1024) 1024).
  - reflexivity.
  - split; discriminate.
Defined.

End DataMore.

(** ** More on the arrange cells *)

Module CellMore.

Import PyDict PyDictFacts Coherence Samples Shown.
Import ConstructFacts XvalsFacts ExtractFacts ArrangeFacts.

Lemma report_completes lines : forall popt errs ns done,
  (forall l, In l lines ->
             snd (fst (fst l)) < List.length popt
             /\ snd (fst (fst l)) < List.length errs) ->
  report lines popt errs ns done
  = {| ns_out := ns;
       shown := done ++ map (print_line popt errs) lines;
       raised := None |}.
Proof.
  induction lines as [|[[[label i] kv] ke] lines IH]; intros popt errs ns done Hin.
  - cbn [report map]. now rewrite app_nil_r.
  - destruct (Hin (label, i, kv, ke) (or_introl eq_refl)) as [Hp He].
    cbn [fst snd] in Hp, He.
    cbn [report]. unfold Py.bind, Py.index.
    destruct (nth_error popt i) as [v|] eqn:Ev;
      [|apply nth_error_None in Ev; lia].
    destruct (nth_error errs i) as [sg|] eqn:Es;
      [|apply nth_error_None in Es; lia].
    cbn [Py.ret]. rewrite IH by (intros l Hl; apply Hin; now right).
    cbn [map print_line]. rewrite <- app_assoc. cbn [app].
    rewrite (nth_error_nth _ _ _ Ev), (nth_error_nth _ _ _ Es). reflexivity.
Qed.

Lemma report_shown_prefix lines : forall popt errs ns done,
  exists rest, shown (report lines popt errs ns done) = done ++ rest.
Proof.
  induction lines as [|[[[label i] kv] ke] lines IH]; intros popt errs ns done.
  - exists []. cbn [report shown]. now rewrite app_nil_r.
  - cbn [report]. unfold Py.bind.
    destruct (Py.index popt i) as [x|v];
      [exists []; cbn [shown]; now rewrite app_nil_r|].
    destruct (Py.index errs i) as [x|sg];
      [exists []; cbn [shown]; now rewrite app_nil_r|].
    cbn [Py.ret].
    destruct (IH popt errs ns (done ++ [Print label (kv * v) (ke * sg)]))
      as [rest Hrest].
    rewrite Hrest, <- app_assoc. eexists. reflexivity.
Qed.

Lemma report_lines_in_range e l :
  In l (report_lines e) -> snd (fst (fst l)) < nparams e.
Proof.
  destruct e; unfold nparams; cbn [report_lines bounds_of fst List.length In];
    intros H; repeat (destruct H as [<-|H]; [cbn; lia|]); contradiction.
Qed.

Lemma length_std_errors pcov :
  List.length (std_errors pcov)
  = Nat.min (List.length pcov) (List.length (hd [] pcov)).
Proof. unfold std_errors, diag. now rewrite !length_map, length_seq. Qed.

Section WithFitter.

Variable curve_fit : fit_call -> Py.result (list R * list (list R)).

(** When [punit] is bound and the fitter returns one value per parameter
    with a covariance matrix of that size, the cell completes: it binds
    the fit, the covariance and the errors, shows the plot and then one
    printed line per parameter, each with the parameter and the square
    root of its diagonal entry, scaled by the factors of the line. *)
Theorem arrange_completes e s r shots ns call popt pcov pu :
  fit_request e s r shots = inr call ->
  curve_fit call = inr (popt, pcov) ->
  punit_after (unit s) (punit ns) = Some pu ->
  List.length popt = nparams e ->
  List.length pcov = nparams e ->
  List.length (hd [] pcov) = nparams e ->
  raised (arrange curve_fit e s r shots ns) = None
  /\ ns_out (arrange curve_fit e s r shots ns)
     = bind_fit (bind_punit ns (Some pu)) e popt pcov
  /\ shown (arrange curve_fit e s r shots ns)
     = Plot {| p_xvals := xvals s; p_data := ydata call;
               p_sigma := p_sigma_of e s r shots; p_fit := popt;
               p_fun := fit_fun_of e; p_punit := pu;
               p_name := plot_name e; p_qubit := qubit e |}
       :: map (print_line popt (std_errors pcov)) (report_lines e)
  /\ forall i, i < nparams e ->
               nth i (std_errors pcov) 0%R = sqrt (nth i (nth i pcov []) 0%R).
Proof.
  intros Hr Hfit Hpu Hl1 Hl2 Hl3.
  rewrite (arrange_fit_ok curve_fit e s r shots ns call popt pcov Hr Hfit).
  cbv zeta. cbn [punit bind_fit bind_punit]. rewrite Hpu.
  rewrite report_completes.
  - cbn [raised ns_out shown app].
    destruct (fit_request_ok _ _ _ _ _ Hr) as [c0 [ds [_ [_ ->]]]].
    cbn [xdata ydata make_call]. repeat split.
    intros i Hi. apply nth_error_nth, std_errors_nth. lia.
  - intros l Hl. apply report_lines_in_range in Hl.
    rewrite length_std_errors. lia.
Qed.

(** No arrange cell unbinds [punit]; a cell whose unit lacks ['ns'] and
    that finds [punit] bound plots the unscaled x values under the unit
    label left by the earlier cell. *)
Theorem punit_stays_bound e s r shots ns u call popt pcov :
  punit ns = Some u ->
  (exists u', punit (ns_out (arrange curve_fit e s r shots ns)) = Some u')
  /\ (Py.find (unit s) "ns" = (-1)%Z ->
      fit_request e s r shots = inr call ->
      curve_fit call = inr (popt, pcov) ->
      plot_factor (unit s) = 1%Q
      /\ exists a rest,
           shown (arrange curve_fit e s r shots ns) = Plot a :: rest
           /\ p_punit a = u /\ p_xvals a = xvals s).
Proof.
  intros Hu. split.
  - destruct (arrange_punit curve_fit e s r shots ns) as [->| ->].
    + now exists u.
    + rewrite Hu.
      destruct (plot_factor_cases (unit s)) as [[_ [_ H]]|[_ [_ H]]];
        rewrite H; eexists; reflexivity.
  - intros Hfind Hr Hfit.
    destruct (plot_factor_cases (unit s)) as [[_ [Hpf H]]|[H _]]; [|lia].
    split; [exact Hpf|].
    rewrite (arrange_fit_ok curve_fit e s r shots ns call popt pcov Hr Hfit).
    cbv zeta. cbn [punit bind_fit bind_punit]. rewrite H, Hu.
    match goal with
    | |- context [report ?l ?p ?er ?n ?d] =>
        destruct (report_shown_prefix l p er n d) as [rest Hrest]
    end.
    rewrite Hrest. cbn [app].
    destruct (fit_request_ok _ _ _ _ _ Hr) as [c0 [ds [_ [_ ->]]]].
    eexists. exists rest. split; [reflexivity|]. split; reflexivity.
Qed.

End WithFitter.

(** An arrange cell reaches the fitter at most once, with the arguments
    of [fit_request]: two fitters that agree on that call give the same
    cell, and the fitter is not consulted when the data loop raises. *)
Theorem arrange_uses_one_call
    (fit1 fit2 : fit_call -> Py.result (list R * list (list R)))
    e s r shots ns :
  (forall call, fit_request e s r shots = inr call -> fit1 call = fit2 call) ->
  arrange fit1 e s r shots ns = arrange fit2 e s r shots ns.
Proof.
  intros Hagree. unfold arrange. unfold fit_request, Py.bind in Hagree.
  destruct (get_counts r "step_0") as [x|c0]; [reflexivity|].
  destruct (extract_loop r (keys c0) shots (keys (qc_dict s))) as [x|ds];
    [reflexivity|].
  now rewrite (Hagree _ eq_refl).
Qed.

Lemma arrange_uses_one_call_witness :
  arrange constant_fit T1 setup_T1 result_T1 shots fresh
  = arrange picky_fit T1 setup_T1 result_T1 shots fresh.
Proof.
  apply (arrange_uses_one_call constant_fit picky_fit).
  intros call [= <-]. reflexivity.
Defined.

Lemma arrange_completes_witness :
  raised (arrange constant_fit T1 setup_T1 result_T1 shots fresh) = None
  /\ ns_out (arrange constant_fit T1 setup_T1 result_T1 shots fresh)
     = bind_fit (bind_punit fresh (Some "$\mu$s")) T1
         [0.5; 50; 0.25]%R [[0.01; 0; 0]; [0; 4; 0]; [0; 0; 0.01]]%R
  /\ shown (arrange constant_fit T1 setup_T1 result_T1 shots fresh)
     = Plot {| p_xvals := xvals setup_T1;
               p_data := map fst (repeat data_point 10);
               p_sigma := p_sigma_of T1 setup_T1 result_T1 shots;
               p_fit := [0.5; 50; 0.25]%R;
               p_fun := exp_fit_fun; p_punit := "$\mu$s";
               p_name := plot_name T1; p_qubit := 3 |}
       :: map (print_line [0.5; 50; 0.25]%R
                 (std_errors [[0.01; 0; 0]; [0; 4; 0]; [0; 0; 0.01]]%R))
              (report_lines T1)
  /\ forall i, i < nparams T1 ->
               nth i (std_errors [[0.01; 0; 0]; [0; 4; 0]; [0; 0; 0.01]]%R) 0%R
               = sqrt (nth i (nth i [[0.01; 0; 0]; [0; 4; 0]; [0; 0; 0.01]]%R
                                [])
                           0%R).
Proof.
  apply (arrange_completes constant_fit T1 setup_T1 result_T1 shots fresh
           (make_call T1 (xvals setup_T1) (map fst (repeat data_point 10))));
    reflexivity.
Defined.

Lemma punit_stays_bound_witness :
  (exists u', punit (ns_out (arrange constant_fit T1 setup_T1_us result_T1
                               shots after_ns_cell)) = Some u')
  /\ plot_factor (unit setup_T1_us) = 1%Q
  /\ exists a rest,
       shown (arrange constant_fit T1 setup_T1_us result_T1 shots
                after_ns_cell) = Plot a :: rest
       /\ p_punit a = "$\mu$s" /\ p_xvals a = xvals setup_T1_us.
Proof.
  pose proof (punit_stays_bound constant_fit T1 setup_T1_us result_T1 shots
                after_ns_cell "$\mu$s"
                (make_call T1 (xvals setup_T1_us)
                   (map fst (repeat data_point 10)))
                [0.5; 50; 0.25]%R
                [[0.01; 0; 0]; [0; 4; 0]; [0; 0; 0.01]]%R eq_refl)
    as [H1 H2].
  split; [exact H1|]. apply H2; reflexivity.
Defined.

End CellMore.

(** ** The Deutsch-Josza circuit *)

Module DJCircuitFacts.

Import DJCircuit.

Lemma bit_set_testbit a i : bit_set a i = Z.testbit a (Z.of_nat i).
Proof.
  unfold bit_set. rewrite Z.shiftl_1_l.
  assert (Hland : Z.land a (2 ^ Z.of_nat i)
                  = if Z.testbit a (Z.of_nat i) then (2 ^ Z.of_nat i)%Z else 0%Z).
  { apply Z.bits_inj'. intros m Hm.
    rewrite Z.land_spec, Z.pow2_bits_eqb by lia.
    destruct (Z.eqb_spec (Z.of_nat i) m) as [<-|Hne].
    - destruct (Z.testbit a (Z.of_nat i)) eqn:E; cbn [andb].
      + rewrite Z.pow2_bits_eqb by lia. now rewrite Z.eqb_refl.
      + now rewrite Z.bits_0.
    - rewrite andb_false_r.
      destruct (Z.testbit a (Z.of_nat i)).
      + rewrite Z.pow2_bits_eqb by lia.
        symmetry. now apply Z.eqb_neq.
      + now rewrite Z.bits_0. }
  rewrite Hland. destruct (Z.testbit a (Z.of_nat i)).
  - assert (0 < 2 ^ Z.of_nat i)%Z by (apply Z.pow_pos_nonneg; lia).
    destruct (Z.eqb_spec (2 ^ Z.of_nat i) 0); [lia | reflexivity].
  - reflexivity.
Qed.

Lemma cx_loop_filter a t idx :
  cx_loop a t idx
  = map (fun i => CX i t) (filter (fun i => Z.testbit a (Z.of_nat i)) idx).
Proof.
  induction idx as [|i idx IH]; cbn [cx_loop filter map]; [reflexivity|].
  rewrite bit_set_testbit, IH.
  now destruct (Z.testbit a (Z.of_nat i)).
Qed.

Lemma no_cx_hadamards n : filter is_cx (hadamards n) = [].
Proof.
  unfold hadamards. induction (seq 0 n) as [|i l IH]; cbn; auto.
Qed.

Lemma no_cx_measurements n : filter is_cx (measurements n) = [].
Proof.
  unfold measurements. induction (seq 0 n) as [|i l IH]; cbn; auto.
Qed.

Lemma filter_cx_map (t : nat) l :
  filter is_cx (map (fun i => CX i t) l) = map (fun i => CX i t) l.
Proof. induction l as [|i l IH]; cbn; [reflexivity | now rewrite IH]. Qed.

Lemma set_bit_below a n :
  (1 <= a < 2 ^ Z.of_nat n)%Z ->
  exists i, i < n /\ Z.testbit a (Z.of_nat i) = true.
Proof.
  intros [Ha Hb].
  assert (Hlog : (0 <= Z.log2 a < Z.of_nat n)%Z).
  { split; [apply Z.log2_nonneg|]. apply Z.log2_lt_pow2; lia. }
  exists (Z.to_nat (Z.log2 a)). split; [lia|].
  rewrite Z2Nat.id by lia. apply Z.bit_log2. lia.
Qed.

(** The balanced oracle is one [cx] onto the answer qubit from every
    qubit whose bit is set in [a], in increasing order, so the circuit
    has as many [cx] gates as [a] has bits set among its [n] low bits:
    at least one for the values of [a] the notebook draws.  The constant
    oracle has no [cx]. *)
Theorem oracle_cx_gates n oracleType oracleValue a :
  (oracleType <> 0%Z ->
   oracle n oracleType oracleValue a
   = map (fun i => CX i n)
         (filter (fun i => Z.testbit a (Z.of_nat i)) (seq 0 n))
   /\ List.length (filter is_cx (djCircuit n oracleType oracleValue a))
      = popcount a n
   /\ ((1 <= a < 2 ^ Z.of_nat n)%Z -> 1 <= popcount a n))
  /\ (oracleType = 0%Z ->
      filter is_cx (djCircuit n oracleType oracleValue a) = []).
Proof.
  split.
  - intros Hty.
    assert (Hor : oracle n oracleType oracleValue a
                  = map (fun i => CX i n)
                        (filter (fun i => Z.testbit a (Z.of_nat i)) (seq 0 n))).
    { unfold oracle. destruct (Z.eqb_spec oracleType 0); [contradiction|].
      apply cx_loop_filter. }
    split; [exact Hor|]. split.
    + unfold djCircuit. rewrite Hor, !filter_app, !no_cx_hadamards,
        no_cx_measurements, filter_cx_map.
      cbn [filter is_cx]. rewrite !app_nil_l, !app_nil_r, length_map. reflexivity.
    + intros Ha. destruct (set_bit_below a n Ha) as [i [Hi Hbit]].
      unfold popcount.
      assert (Hin : In i (filter (fun i => Z.testbit a (Z.of_nat i)) (seq 0 n))).
      { apply filter_In. split; [apply in_seq; lia | exact Hbit]. }
      destruct (filter _ (seq 0 n)); [contradiction | cbn; lia].
  - intros ->. unfold djCircuit, oracle. cbn [Z.eqb].
    rewrite !filter_app, !no_cx_hadamards, no_cx_measurements.
    now destruct (oracleValue =? 1)%Z; cbn [filter is_cx];
      rewrite ?app_nil_l, ?app_nil_r.
Qed.

Lemma oracle_cx_gates_witness :
  (1%Z <> 0%Z ->
   oracle 3 1 0 5
   = map (fun i => CX i 3)
         (filter (fun i => Z.testbit 5 (Z.of_nat i)) (seq 0 3))
   /\ List.length (filter is_cx (djCircuit 3 1 0 5)) = popcount 5 3
   /\ ((1 <= 5 < 2 ^ Z.of_nat 3)%Z -> 1 <= popcount 5 3))
  /\ (0%Z = 0%Z -> filter is_cx (djCircuit 3 0 1 5) = []).
Proof.
  split.
  - exact (proj1 (oracle_cx_gates 3 1 0 5)).
  - exact (proj2 (oracle_cx_gates 3 0 1 5)).
Defined.

Lemma classical_run_app c1 c2 s :
  classical_run (c1 ++ c2) s
  = match classical_run c1 s with
    | Some s1 => classical_run c2 s1
    | None => None
    end.
Proof.
  revert s. induction c1 as [|g c1 IH]; intros s.
  - reflexivity.
  - rewrite <- app_comm_cons. cbn [classical_run].
    destruct (classical_gate g s); [apply IH | reflexivity].
Qed.

Lemma inner_ext a x y n :
  (forall i, i < n -> x i = y i) -> inner a x n = inner a y n.
Proof.
  induction n as [|k IH]; intros H; cbn [inner]; [reflexivity|].
  rewrite IH by (intros i Hi; apply H; lia). now rewrite H by lia.
Qed.

(** The loop of [cx] gates adds to the target the inner product of [a]
    with the qubits visited. *)
Lemma cx_loop_run a t k : forall s,
  k <= t ->
  exists s', classical_run (cx_loop a t (seq 0 k)) s = Some s'
             /\ (forall j, j <> t -> s' j = s j)
             /\ s' t = xorb (s t) (inner a s k).
Proof.
  induction k as [|k IH]; intros s Hk.
  - exists s. cbn [seq cx_loop classical_run inner]. repeat split.
    now rewrite xorb_false_r.
  - destruct (IH s ltac:(lia)) as [s1 [Hrun [Hsame Ht]]].
    rewrite seq_S, !cx_loop_filter, filter_app, map_app, <- cx_loop_filter.
    rewrite classical_run_app, Hrun. cbn [Nat.add filter].
    destruct (Z.testbit a (Z.of_nat k)) eqn:Hbit;
      cbn [map classical_run classical_gate inner]; rewrite Hbit.
    + rewrite (Hsame k) by lia. destruct (s k) eqn:Hsk.
      * eexists. split; [reflexivity|]. split.
        -- intros j Hj. unfold flip.
           destruct (Nat.eqb_spec j t); [contradiction | now apply Hsame].
        -- unfold flip. rewrite Nat.eqb_refl, Ht.
           destruct (s t), (inner a s k); reflexivity.
      * exists s1. split; [reflexivity|]. split; [exact Hsame|].
        rewrite Ht. cbn [andb]. now rewrite xorb_false_r.
    + exists s1. split; [reflexivity|]. split; [exact Hsame|].
      rewrite Ht. cbn [andb]. now rewrite xorb_false_r.
Qed.

Lemma oracle_run n oracleType oracleValue a s :
  exists s',
    classical_run (oracle n oracleType oracleValue a) s = Some s'
    /\ (forall k, k <> n -> s' k = s k)
    /\ s' n = xorb (s n)
                (if (oracleType =? 0)%Z then (oracleValue =? 1)%Z
                 else inner a s n).
Proof.
  unfold oracle. destruct (oracleType =? 0)%Z.
  - destruct (oracleValue =? 1)%Z; cbn [classical_run classical_gate].
    + eexists. split; [reflexivity|]. split.
      * intros k Hk. unfold flip. now destruct (Nat.eqb_spec k n).
      * unfold flip. rewrite Nat.eqb_refl. now destruct (s n).
    + exists s. repeat split. now rewrite xorb_false_r.
  - now apply cx_loop_run.
Qed.

(** On a basis state the gates between the barriers leave the first
    register as it is and add to the answer qubit the value of the
    hidden function: [oracleValue] for the constant oracle, the inner
    product of [a] with the input for the balanced one.  Applying them
    twice gives the state back. *)
Theorem oracle_action n oracleType oracleValue a s :
  exists s' s'',
    classical_run (oracle n oracleType oracleValue a) s = Some s'
    /\ (forall k, k <> n -> s' k = s k)
    /\ s' n = xorb (s n)
                (if (oracleType =? 0)%Z then (oracleValue =? 1)%Z
                 else inner a s n)
    /\ classical_run (oracle n oracleType oracleValue a
                      ++ oracle n oracleType oracleValue a) s = Some s''
    /\ forall k, s'' k = s k.
Proof.
  destruct (oracle_run n oracleType oracleValue a s) as [s1 [Hr1 [Hk1 Hn1]]].
  destruct (oracle_run n oracleType oracleValue a s1) as [s2 [Hr2 [Hk2 Hn2]]].
  exists s1, s2. split; [exact Hr1|]. split; [exact Hk1|].
  split; [exact Hn1|]. split.
  - now rewrite classical_run_app, Hr1.
  - intros k. destruct (Nat.eq_dec k n) as [->|Hne].
    + rewrite Hn2, Hn1.
      rewrite (inner_ext a s1 s n) by (intros i Hi; apply Hk1; lia).
      destruct (s n), (if (oracleType =? 0)%Z then _ else _); reflexivity.
    + now rewrite Hk2, Hk1.
Qed.

Lemma all_inputs_length n l : In l (all_inputs n) -> List.length l = n.
Proof.
  revert l. induction n as [|k IH]; intros l; cbn [all_inputs].
  - intros [<-|[]]. reflexivity.
  - rewrite in_flat_map. intros [l0 [Hl0 [<-|[<-|[]]]]];
      rewrite length_app, (IH _ Hl0); cbn; lia.
Qed.

Lemma length_all_inputs n : List.length (all_inputs n) = 2 ^ n.
Proof.
  induction n as [|k IH]; [reflexivity|].
  cbn [all_inputs]. rewrite Nat.pow_succ_r', <- IH.
  generalize (all_inputs k). intros L.
  induction L as [|l L IHL]; [reflexivity|].
  cbn [flat_map]. rewrite length_app, IHL. cbn [List.length]. lia.
Qed.

Lemma state_of_snoc l b i :
  state_of (l ++ [b]) i
  = if Nat.ltb i (List.length l) then state_of l i
    else if Nat.eqb i (List.length l) then b else false.
Proof.
  unfold state_of. destruct (Nat.ltb_spec i (List.length l)).
  - now apply app_nth1.
  - rewrite app_nth2 by lia.
    destruct (Nat.eqb_spec i (List.length l)) as [->|Hne].
    + now rewrite Nat.sub_diag.
    + destruct (i - List.length l) as [|[|m]] eqn:E; try lia; reflexivity.
Qed.

Lemma inner_snoc a l b :
  inner a (state_of (l ++ [b])) (S (List.length l))
  = xorb (inner a (state_of l) (List.length l))
         (Z.testbit a (Z.of_nat (List.length l)) && b).
Proof.
  cbn [inner]. f_equal.
  - apply inner_ext. intros i Hi. rewrite state_of_snoc.
    destruct (Nat.ltb_spec i (List.length l)); [reflexivity | lia].
  - rewrite state_of_snoc, Nat.ltb_irrefl, Nat.eqb_refl. reflexivity.
Qed.

(** One more qubit: either its bit is set in [a] and every shorter input
    extends to exactly one input of value 1, or it is not and the
    inputs of value 1 double. *)
Lemma count_step a k L :
  Forall (fun l => List.length l = k) L ->
  List.length
    (filter (fun l => inner a (state_of l) (S k))
            (flat_map (fun l => [l ++ [false]; l ++ [true]]) L))
  = if Z.testbit a (Z.of_nat k) then List.length L
    else 2 * List.length (filter (fun l => inner a (state_of l) k) L).
Proof.
  induction 1 as [|l L Hl HL IH]; cbn [flat_map].
  - now destruct (Z.testbit a (Z.of_nat k)).
  - rewrite filter_app, length_app, IH. subst k.
    cbn [filter]. rewrite !inner_snoc.
    destruct (Z.testbit a (Z.of_nat (List.length l)));
      destruct (inner a (state_of l) (List.length l)); cbn; lia.
Qed.

Lemma count_inner a n :
  (exists i, i < n /\ Z.testbit a (Z.of_nat i) = true) ->
  2 * count_ones (fun x => inner a x n) n = 2 ^ n.
Proof.
  unfold count_ones. induction n as [|k IH]; intros [i [Hi Hbit]]; [lia|].
  cbn [all_inputs]. rewrite count_step
    by (apply Forall_forall; intros l; apply all_inputs_length).
  destruct (Z.testbit a (Z.of_nat k)) eqn:Hk.
  - rewrite length_all_inputs, Nat.pow_succ_r'. reflexivity.
  - assert (Hik : i < k).
    { destruct (Nat.eq_dec i k) as [->|]; [congruence | lia]. }
    rewrite IH by (exists i; now split).
    now rewrite Nat.pow_succ_r'.
Qed.

Lemma count_ones_ext f g n :
  (forall x, f x = g x) -> count_ones f n = count_ones g n.
Proof.
  intros H. unfold count_ones. f_equal. apply filter_ext.
  intros l. apply H.
Qed.

Lemma answer_flip_value n oracleType oracleValue a x :
  answer_flip n oracleType oracleValue a x
  = if (oracleType =? 0)%Z then (oracleValue =? 1)%Z else inner a x n.
Proof.
  unfold answer_flip.
  destruct (oracle_run n oracleType oracleValue a x) as [s' [-> [_ ->]]].
  now destruct (x n), (if (oracleType =? 0)%Z then _ else _).
Qed.

(** The hidden function is what the notebook promises.  Balanced oracle,
    for every [a] the notebook can draw: the answer qubit is negated on
    exactly half of the [2^n] inputs.  Constant oracle: it is negated on
    every input when [oracleValue] is 1 and on none otherwise. *)
Theorem oracle_balanced_or_constant n oracleType oracleValue a :
  (oracleType <> 0%Z -> (1 <= a < 2 ^ Z.of_nat n)%Z ->
   2 * count_ones (answer_flip n oracleType oracleValue a) n = 2 ^ n)
  /\ (oracleType = 0%Z ->
      count_ones (answer_flip n oracleType oracleValue a) n
      = if (oracleValue =? 1)%Z then 2 ^ n else 0).
Proof.
  split.
  - intros Hty Ha.
    rewrite (count_ones_ext _ (fun x => inner a x n)).
    + apply count_inner, set_bit_below, Ha.
    + intros x. rewrite answer_flip_value.
      now destruct (Z.eqb_spec oracleType 0).
  - intros ->.
    rewrite (count_ones_ext _ (fun _ => (oracleValue =? 1)%Z))
      by (intros x; now rewrite answer_flip_value).
    unfold count_ones. destruct (oracleValue =? 1)%Z.
    + rewrite <- length_all_inputs. f_equal.
      induction (all_inputs n) as [|l L IH]; cbn [filter]; congruence.
    + induction (all_inputs n) as [|l L IH]; cbn [filter]; auto.
Qed.

Lemma oracle_balanced_or_constant_witness :
  2 * count_ones (answer_flip 3 1 0 5) 3 = 2 ^ 3
  /\ count_ones (answer_flip 3 0 1 5) 3 = 2 ^ 3.
Proof.
  split.
  - apply (proj1 (oracle_balanced_or_constant 3 1 0 5)); [discriminate | lia].
  - apply (proj2 (oracle_balanced_or_constant 3 0 1 5)). reflexivity.
Defined.

End DJCircuitFacts.

(** ** More on the filtered histogram *)

Module FilterMore.

Import PyDict PyDictFacts DeutschJosza DeutschJoszaFacts Samples.
Local Open Scope Z_scope.

Lemma get_set_other {V} (d : dict V) k0 k x :
  k <> k0 -> get (set d k0 x) k = get d k.
Proof.
  intros Hne. induction d as [|[k' v'] d IH]; cbn [set get].
  - destruct (String.eqb_spec k k0); [contradiction | reflexivity].
  - destruct (String.eqb_spec k0 k') as [->|Hk]; cbn [get].
    + destruct (String.eqb_spec k k'); [contradiction | reflexivity].
    + now rewrite IH.
Qed.

Lemma length_set {V} (d : dict V) k x :
  (List.length (set d k x) <= List.length d + 1)%nat.
Proof.
  induction d as [|[k' v'] d IH]; cbn [set List.length]; [lia|].
  destruct (String.eqb k k'); cbn [List.length]; lia.
Qed.

Lemma get_filter {V} (p : string * V -> bool) (d : dict V) k :
  NoDup (keys d) ->
  get (filter p d) k
  = match get d k with
    | Some v => if p (k, v) then Some v else None
    | None => None
    end.
Proof.
  induction d as [|[k' v'] d IH]; cbn [keys map fst filter get];
    intros Hnd; [reflexivity|].
  inversion Hnd as [|? ? Hnotin Hnd']; subst.
  destruct (String.eqb_spec k k') as [->|Hne].
  - destruct (p (k', v')) eqn:Hp; cbn [get].
    + now rewrite String.eqb_refl.
    + apply get_None_notin. intros Hin. apply Hnotin.
      eapply keys_filter_incl. exact Hin.
  - destruct (p (k', v')); cbn [get].
    + destruct (String.eqb_spec k k'); [contradiction | now apply IH].
    + now apply IH.
Qed.

Lemma total_set_old (d : dict Z) k old x :
  get d k = Some old -> total (set d k x) = total d - old + x.
Proof.
  unfold total, values.
  induction d as [|[k' v'] d IH]; cbn [get set]; [discriminate|].
  destruct (String.eqb k k'); cbn [map snd]; rewrite !sumZ_cons.
  - intros [= ->]. lia.
  - intros Hg. rewrite (IH Hg). lia.
Qed.

Lemma keys_set_present {V} (d : dict V) k old x :
  get d k = Some old -> keys (set d k x) = keys d.
Proof.
  intros Hg. apply keys_set_old.
  destruct (get d k) eqn:E; [|discriminate].
  apply get_Some_in in E. unfold keys. apply in_map_iff.
  eexists. split; [|exact E]. reflexivity.
Qed.

Lemma kept_sum_bound (answer : dict Z) t :
  Forall (fun v => 0 <= v) (values answer) ->
  t * Z.of_nat (List.length (kept answer t)) <= total answer.
Proof.
  unfold kept, items, total, values.
  induction answer as [|[k v] d IH]; cbn [filter map snd List.length];
    intros Hpos.
  - cbn. lia.
  - inversion Hpos as [|? ? Hv Hd]; subst. cbn [snd] in Hv.
    specialize (IH Hd). rewrite sumZ_cons. cbn [snd].
    destruct (Z.geb_spec v t); cbn [List.length]; lia.
Qed.

(** The filtered histogram keeps only entries of the answer with a count
    of at least the threshold; for measured counts there are at most
    [total / threshold] of them, so the plot has at most that many bars
    and the bar of the removed counts. *)
Theorem kept_entries_bound (answer : dict Z) t k v :
  0 < t ->
  Forall (fun v => 0 <= v) (values answer) ->
  t * Z.of_nat (List.length (kept answer t)) <= total answer
  /\ (List.length (filteredAnswer answer t)
      <= List.length (kept answer t) + 1)%nat
  /\ (In (k, v) (kept answer t) -> t <= v /\ In (k, v) answer).
Proof.
  intros Ht Hpos. split; [now apply kept_sum_bound|]. split.
  - apply length_set.
  - unfold kept, items. rewrite filter_In. cbn [snd].
    intros [Hin Hge]. split; [|assumption].
    destruct (Z.geb_spec v t); [lia | discriminate].
Qed.

Lemma kept_entries_bound_witness :
  threshold * Z.of_nat (List.length (kept answer_ex threshold))
    <= total answer_ex
  /\ (List.length (filteredAnswer answer_ex threshold)
      <= List.length (kept answer_ex threshold) + 1)%nat
  /\ (In ("000000000000001"%string, 950) (kept answer_ex threshold) ->
      threshold <= 950
      /\ In ("000000000000001"%string, 950) answer_ex).
Proof.
  apply (kept_entries_bound answer_ex threshold).
  - reflexivity.
  - unfold answer_ex, values. simpl.
    repeat (apply Forall_cons; [lia|]). apply Forall_nil.
Defined.

Lemma removed_exact (answer : dict Z) t :
  Forall (fun v => 0 <= v) (values answer) ->
  total answer < 2 ^ 63 ->
  removedCounts answer t
  = sumZ (map snd (filter (fun kv => snd kv <? t) answer)).
Proof.
  intros Hpos Hfit.
  pose proof (split_total answer t) as Hsplit.
  pose proof (kept_nonneg answer t Hpos) as Hkept.
  unfold removedCounts, items. apply np_sum_exact.
  - now apply removed_nonneg.
  - unfold total, values in Hfit. lia.
Qed.

(** When ['other_bitstring'] is itself an outcome of the answer: with a
    count below the threshold it is removed like any other and the total
    is preserved; with a count at or above the threshold its entry is
    overwritten by the removed counts, in place, and the total drops by
    its count. *)
Theorem other_bitstring_present (answer : dict Z) t v :
  NoDup (keys answer) ->
  get answer "other_bitstring" = Some v ->
  Forall (fun v => 0 <= v) (values answer) ->
  total answer < 2 ^ 63 ->
  (v < t -> total (filteredAnswer answer t) = total answer)
  /\ (t <= v ->
      total (filteredAnswer answer t) = total answer - v
      /\ keys (filteredAnswer answer t) = keys (kept answer t)).
Proof.
  intros Hnd Hget Hpos Hfit.
  pose proof (split_total answer t) as Hsplit.
  pose proof (removed_exact answer t Hpos Hfit) as Hrem.
  assert (Hk : get (kept answer t) "other_bitstring"
               = if v >=? t then Some v else None).
  { unfold kept, items. rewrite get_filter by assumption.
    rewrite Hget. reflexivity. }
  assert (Htot : total (kept answer t)
                 = sumZ (map snd (filter (fun kv => snd kv >=? t) answer)))
    by reflexivity.
  unfold total at 1 in Hfit. unfold values in Hfit.
  split.
  - intros Hlt. destruct (Z.geb_spec v t); [lia|].
    apply get_None_notin in Hk. unfold filteredAnswer.
    rewrite (set_new _ _ _ Hk), total_app, Htot, Hrem.
    unfold total at 1, values. cbn [map snd]. rewrite sumZ_cons.
    unfold total, values. cbn [sumZ fold_right]. lia.
  - intros Hge. destruct (Z.geb_spec v t); [|lia].
    unfold filteredAnswer. split.
    + rewrite (total_set_old _ _ _ _ Hk), Htot, Hrem.
      unfold total, values. lia.
    + now apply (keys_set_present _ _ v).
Qed.

Lemma other_bitstring_present_witness :
  (40 < threshold ->
   total (filteredAnswer [("0", 960); ("other_bitstring", 40)]%string threshold)
   = total [("0", 960); ("other_bitstring", 40)]%string)
  /\ (threshold <= 40 ->
      total (filteredAnswer [("0", 960); ("other_bitstring", 40)]%string
               threshold)
      = total [("0", 960); ("other_bitstring", 40)]%string - 40
      /\ keys (filteredAnswer [("0", 960); ("other_bitstring", 40)]%string
                 threshold)
         = keys (kept [("0", 960); ("other_bitstring", 40)]%string threshold)).
Proof.
  apply (other_bitstring_present
           [("0", 960); ("other_bitstring", 40)]%string threshold 40).
  - cbn. repeat constructor; cbn; intuition discriminate.
  - reflexivity.
  - cbn. repeat (apply Forall_cons; [lia|]). apply Forall_nil.
  - vm_compute. reflexivity.
Defined.

(** Apart from ['other_bitstring'], looking a bitstring up in the
    filtered histogram gives its count in the answer when that count is
    at least the threshold, and nothing otherwise. *)
Theorem filteredAnswer_lookup (answer : dict Z) t k :
  NoDup (keys answer) ->
  k <> "other_bitstring"%string ->
  get (filteredAnswer answer t) k
  = match get answer k with
    | Some v => if v >=? t then Some v else None
    | None => None
    end.
Proof.
  intros Hnd Hne. unfold filteredAnswer.
  rewrite get_set_other by assumption.
  unfold kept, items. now rewrite get_filter.
Qed.

Lemma filteredAnswer_lookup_witness :
  get (filteredAnswer answer_ex threshold) "000000000000011"
  = match get answer_ex "000000000000011" with
    | Some v => if v >=? threshold then Some v else None
    | None => None
    end.
Proof.
  apply (filteredAnswer_lookup answer_ex threshold).
  - cbn. repeat constructor; cbn; intuition discriminate.
  - discriminate.
Defined.

End FilterMore.

(** ** The round trip of the fit *)

Module FitFacts.

Import Coherence Samples MoreSamples Fit.











End FitFacts.

(** ** The selected key and the excited state *)

Module KeyOrderFacts.

Import PyDict Coherence Samples MoreSamples.

(** C2 (evaluation at a failing input). The T1 experiment measures
    qubit 3 into bit 3 of a register of five bits, so the excited state
    is the outcome ['01000'].  When the counts list that outcome first,
    768 of 1024 shots being excited at every step, the data loop takes
    the second key, ['00000'], and stores the probability 256/1024 = 1/4
    for every step, where the excited-state count divided by the shots is
    3/4. *)
Theorem data_of_swapped_histogram :
  excited_bitstring 5 (qubit T1) = "01000"
  /\ get counts_3_swapped "01000" = Some 768%Z
  /\ Qred (inject_Z 768 / inject_Z shots) = (3 # 4)%Q
  /\ excited_key counts_3_swapped = inr "00000"
  /\ exists call,
       fit_request T1 setup_T1 result_swapped shots = inr call
       /\ map Qred (ydata call) = repeat (1 # 4)%Q 10.
Proof.
  split; [reflexivity|]. split; [reflexivity|]. split; [reflexivity|].
  split; [reflexivity|].
  eexists. split; [reflexivity|]. vm_compute. reflexivity.
Qed.

End KeyOrderFacts.
